(** * A command shell: builtin registry, session initialisation and the
      read-dispatch-execute loop of [shell.c]

    The C program is embedded shallowly.  Every function of [shell.c]
    becomes a computation in a small monad [M] over an explicit [world]:
    the part of the process and of the operating system that the program
    reads or changes.  Each library call the program makes is recorded, in
    order, in the world's [w_trace]; claims about what is printed, which
    calls are made and in which order are statements about that trace.

    Conventions.
    - A Rocq [string] stands for the contents of a NUL-terminated C string;
      [option string] is a [char *] that may be [NULL] ([None]).
    - [int] and [pid_t] values are [Z]; [size_t] indices are [nat].
    - The operating system is a record [kernel] of transition functions on
      an abstract system state; theorems hold for every kernel.
    - A write is recorded when the call is made: the buffers of [stdio]
      are not part of the model.
    - A child that is created runs to its end before its parent's next
      call, the parent's next call being the [wait] for it. *)

From Stdlib Require Import ZArith String Ascii.
From stdpp Require Import base list strings gmap pretty.

Local Open Scope string_scope.
Local Open Scope Z_scope.
Local Open Scope list_scope.

(** ** C library constants *)

Definition STDIN_FILENO : Z := 0.
Definition EXIT_FAILURE : Z := 1.
Definition SIGTTIN : Z := 21.
Definition EFAULT : Z := 14.
Definition ECHILD : Z := 10.
Definition ERANGE : Z := 34.

(** [int] arithmetic: the value of an [int] expression wraps to 32 bits
    (for [++line_num] this is what the usual targets do on overflow). *)
Definition int_wrap (z : Z) : Z := (z + 2 ^ 31) mod 2 ^ 32 - 2 ^ 31.

(** ** [strcmp] *)

Definition uchar (c : ascii) : Z := Z.of_N (N_of_ascii c).

(** The terminating NUL is the end of the Rocq string; comparison stops at
    the first differing byte, or at a NUL on both sides. *)
Fixpoint strcmp (s1 s2 : string) : Z :=
  match s1, s2 with
  | EmptyString, EmptyString => 0
  | EmptyString, String c2 _ => 0 - uchar c2
  | String c1 _, EmptyString => uchar c1 - 0
  | String c1 r1, String c2 r2 =>
      if uchar c1 =? uchar c2
      then (if uchar c1 =? 0 then 0 else strcmp r1 r2)
      else uchar c1 - uchar c2
  end.

(** A Rocq string is the contents of a C string when it holds no NUL. *)
Fixpoint is_cstring (s : string) : bool :=
  match s with
  | EmptyString => true
  | String c r => negb (uchar c =? 0) && is_cstring r
  end.

(** ** The token source *)

(** Modelled from the spec: [struct tokens] of [tokenizer.h], which is not
    part of the sources.  The spec describes Tokens as "an ordered,
    zero-indexed sequence of word strings" produced from one line. *)
Definition tokens := list string.

(** Modelled from the spec: [tokens_get_length], the spec's
    "length(Tokens) -> count". *)
Definition tokens_get_length (t : tokens) : nat := length t.

(** Modelled from the spec: [tokens_get_token], the spec's
    "token_at(Tokens, index) -> string"; the first token may be absent
    (empty line), which the caller sees as [NULL]. *)
Definition tokens_get_token (t : tokens) (n : nat) : option string := t !! n.

(** ** The builtin registry *)

(** The four handlers a [cmd_fun_t *] of the table can point to. *)
Inductive cmd_fun_t := Cmd_exit | Cmd_help | Cmd_pwd | Cmd_cd.

Record fun_desc := Fun_desc {
  fd_fun : cmd_fun_t;
  fd_cmd : string;
  fd_doc : string;
}.

Definition cmd_table : list fun_desc :=
  [ Fun_desc Cmd_exit "exit" "exit the command shell";
    Fun_desc Cmd_help "?" "show this help menu";
    Fun_desc Cmd_pwd "pwd" "prints working directory";
    Fun_desc Cmd_cd "cd" "changes directory" ].

(** The test [cmd && (strcmp(cmd_table[i].cmd, cmd) == 0)]. *)
Definition entry_matches (d : fun_desc) (cmd : option string) : bool :=
  match cmd with
  | None => false
  | Some c => strcmp (fd_cmd d) c =? 0
  end.

(** The [for] loop of [lookup], entered at index [i] with the entries
    [tbl] still to visit. *)
Fixpoint lookup_from (tbl : list fun_desc) (i : Z) (cmd : option string) : Z :=
  match tbl with
  | [] => -1
  | d :: tbl' => if entry_matches d cmd then i else lookup_from tbl' (i + 1) cmd
  end.

Definition lookup (cmd : option string) : Z := lookup_from cmd_table 0 cmd.

(** ** The operating system *)

Record termios := Termios {
  c_iflag : Z;
  c_oflag : Z;
  c_cflag : Z;
  c_lflag : Z;
}.

(** What the program asks of the system.  [sys] is the state of everything
    outside the shell's own memory (terminal, process table, file
    system).  A call that fails yields its [errno] on the left. *)
Record kernel := Kernel {
  sys : Type;
  k_isatty : sys -> Z -> bool;
  k_tcgetpgrp : sys -> Z -> Z;
  k_getpgrp : sys -> Z;
  k_getpid : sys -> Z;
  (** the system as the caller finds it when it runs again after the signal *)
  k_kill : sys -> Z -> Z -> sys;
  k_tcsetpgrp : sys -> Z -> Z -> option Z * sys;
  k_tcgetattr : sys -> Z -> Z + termios;
  (** [Some e]: the current directory cannot be named any more *)
  k_getcwd : sys -> string -> option Z;
  (** the directory a path leads to from the current one *)
  k_chdir : sys -> string -> string -> Z + string;
  (** the new process id, which is positive *)
  k_fork : sys -> (Z + positive) * sys;
  (** failure, or the system once the program has run and terminated *)
  k_execv : sys -> string -> list (option string) -> Z + sys;
}.

(** ** Events *)

Inductive event :=
| Isatty (fd : Z) (r : bool)
| Tcgetpgrp (fd : Z) (r : Z)
| Getpgrp (r : Z)
| Kill (pid sig : Z)
| Getpid (r : Z)
| Tcsetpgrp (fd pgid : Z) (r : Z)
| Tcgetattr (fd : Z) (r : Z)
| Prompt (n : Z)                         (* fprintf(stdout, "%d: ", n) *)
| Fgets (r : option string)              (* fgets(line, 4096, stdin) *)
| Printf (s : string)                    (* printf of a builtin *)
| Eprintf (s : string)                   (* fprintf(stderr, ...) *)
| Perror (prefix : option string) (e : Z)
| Getcwd (r : option string)
| Getenv (name : string) (r : option string)
| Chdir (path : option string) (r : Z)
| Fork (r : Z)
| Execv (path : option string) (argv : list (option string)) (r : Z)
| Wait (r : Z)
| ExitCall (status : Z).

(** Which process made the call. *)
Inductive proc := Parent | Child (pid : Z).

(** The bytes a call writes on standard output. *)
Definition stdout_bytes (e : event) : string :=
  match e with
  | Prompt n => pretty n +:+ ": "
  | Printf s => s
  | _ => ""
  end.

Declare Scope shell_scope.

Definition nl : string := String (ascii_of_nat 10) EmptyString.

Section World.

Context {K : kernel}.

(** ** The world of one process *)

Record world := World {
  w_sys : sys K;
  w_self : proc;
  w_errno : Z;
  w_cwd : string;
  w_environ : gmap string string;
  w_children : list Z;                (* children not yet waited for *)
  w_trace : list (proc * event);      (* oldest call first *)
  (* the globals of shell.c *)
  shell_is_interactive : bool;
  shell_terminal : Z;
  shell_tmodes : termios;
  shell_pgid : Z;
}.

Definition set_sys (s : sys K) (w : world) : world :=
  World s (w_self w) (w_errno w) (w_cwd w) (w_environ w) (w_children w)
    (w_trace w) (shell_is_interactive w) (shell_terminal w) (shell_tmodes w)
    (shell_pgid w).
Definition set_self (p : proc) (w : world) : world :=
  World (w_sys w) p (w_errno w) (w_cwd w) (w_environ w) (w_children w)
    (w_trace w) (shell_is_interactive w) (shell_terminal w) (shell_tmodes w)
    (shell_pgid w).
Definition set_errno (e : Z) (w : world) : world :=
  World (w_sys w) (w_self w) e (w_cwd w) (w_environ w) (w_children w)
    (w_trace w) (shell_is_interactive w) (shell_terminal w) (shell_tmodes w)
    (shell_pgid w).
Definition set_cwd (d : string) (w : world) : world :=
  World (w_sys w) (w_self w) (w_errno w) d (w_environ w) (w_children w)
    (w_trace w) (shell_is_interactive w) (shell_terminal w) (shell_tmodes w)
    (shell_pgid w).
Definition set_children (c : list Z) (w : world) : world :=
  World (w_sys w) (w_self w) (w_errno w) (w_cwd w) (w_environ w) c
    (w_trace w) (shell_is_interactive w) (shell_terminal w) (shell_tmodes w)
    (shell_pgid w).
Definition set_trace (t : list (proc * event)) (w : world) : world :=
  World (w_sys w) (w_self w) (w_errno w) (w_cwd w) (w_environ w)
    (w_children w) t (shell_is_interactive w) (shell_terminal w)
    (shell_tmodes w) (shell_pgid w).
Definition set_shell_is_interactive (b : bool) (w : world) : world :=
  World (w_sys w) (w_self w) (w_errno w) (w_cwd w) (w_environ w)
    (w_children w) (w_trace w) b (shell_terminal w) (shell_tmodes w)
    (shell_pgid w).
Definition set_shell_terminal (fd : Z) (w : world) : world :=
  World (w_sys w) (w_self w) (w_errno w) (w_cwd w) (w_environ w)
    (w_children w) (w_trace w) (shell_is_interactive w) fd (shell_tmodes w)
    (shell_pgid w).
Definition set_shell_tmodes (t : termios) (w : world) : world :=
  World (w_sys w) (w_self w) (w_errno w) (w_cwd w) (w_environ w)
    (w_children w) (w_trace w) (shell_is_interactive w) (shell_terminal w) t
    (shell_pgid w).
Definition set_shell_pgid (g : Z) (w : world) : world :=
  World (w_sys w) (w_self w) (w_errno w) (w_cwd w) (w_environ w)
    (w_children w) (w_trace w) (shell_is_interactive w) (shell_terminal w)
    (shell_tmodes w) g.

(** Append a call of the running process to the trace. *)
Definition record_event (e : event) (w : world) : world :=
  set_trace (w_trace w ++ [(w_self w, e)]) w.

(** ** The monad

    A computation ends in one of four ways: it returns a value, the process
    calls [exit], the process image is replaced by [execv], or a loop whose
    length the environment decides was cut off for lack of fuel. *)
Inductive res (A : Type) :=
| Ret (a : A) (w : world)
| Exited (status : Z) (w : world)
| Execed (path : string) (argv : list (option string)) (w : world)
| OutOfFuel (w : world).
Arguments Ret {A}.
Arguments Exited {A}.
Arguments Execed {A}.
Arguments OutOfFuel {A}.

Definition M (A : Type) : Type := world -> res A.

Definition ret {A} (a : A) : M A := fun w => Ret a w.

Definition bind {A B} (c : M A) (f : A -> M B) : M B := fun w =>
  match c w with
  | Ret a w' => f a w'
  | Exited st w' => Exited st w'
  | Execed p av w' => Execed p av w'
  | OutOfFuel w' => OutOfFuel w'
  end.

Definition final_world {A} (r : res A) : world :=
  match r with
  | Ret _ w | Exited _ w | Execed _ _ w | OutOfFuel w => w
  end.

Definition gets {A} (f : world -> A) : M A := fun w => Ret (f w) w.
Definition modify (f : world -> world) : M unit := fun w => Ret tt (f w).
Definition call (e : event) : M unit := modify (record_event e).

End World.

Arguments world : clear implicits.
Arguments M : clear implicits.
Arguments res : clear implicits.
Arguments Ret {K A}.
Arguments Exited {K A}.
Arguments Execed {K A}.
Arguments OutOfFuel {K A}.

Notation "x <- c ;; k" := (bind c (fun x => k))
  (at level 20, c at level 99, k at level 200, only parsing) : shell_scope.
Notation "c ;; k" := (bind c (fun _ => k))
  (at level 100, k at level 200, only parsing, right associativity)
  : shell_scope.
Local Open Scope shell_scope.

Section Shell.

Context {K : kernel}.

(** The tokenizer is an external collaborator ([tokenizer.h]): the loop is
    verified for any function from lines to token sequences. *)
Context (tokenize : string -> tokens).

(** Computations of a process on this kernel. *)
Local Abbreviation Sh := (M K).

(** ** Library calls *)

Definition isatty (fd : Z) : Sh bool := fun w =>
  let r := k_isatty K (w_sys w) fd in
  Ret r (record_event (Isatty fd r) w).

Definition tcgetpgrp (fd : Z) : Sh Z := fun w =>
  let r := k_tcgetpgrp K (w_sys w) fd in
  Ret r (record_event (Tcgetpgrp fd r) w).

Definition getpgrp : Sh Z := fun w =>
  let r := k_getpgrp K (w_sys w) in
  Ret r (record_event (Getpgrp r) w).

Definition getpid : Sh Z := fun w =>
  let r := k_getpid K (w_sys w) in
  Ret r (record_event (Getpid r) w).

(** The caller continues once the signal has been dealt with; for
    [SIGTTIN] sent to its own group, once it has been continued. *)
Definition kill (pid sig : Z) : Sh unit := fun w =>
  Ret tt (set_sys (k_kill K (w_sys w) pid sig) (record_event (Kill pid sig) w)).

Definition tcsetpgrp (fd pgid : Z) : Sh Z := fun w =>
  match k_tcsetpgrp K (w_sys w) fd pgid with
  | (None, s) => Ret 0 (set_sys s (record_event (Tcsetpgrp fd pgid 0) w))
  | (Some e, s) =>
      Ret (-1) (set_errno e (set_sys s (record_event (Tcsetpgrp fd pgid (-1)) w)))
  end.

(** [tcgetattr(fd, &shell_tmodes)]: the structure is written on success
    only. *)
Definition tcgetattr_shell_tmodes (fd : Z) : Sh Z := fun w =>
  match k_tcgetattr K (w_sys w) fd with
  | inr t => Ret 0 (set_shell_tmodes t (record_event (Tcgetattr fd 0) w))
  | inl e => Ret (-1) (set_errno e (record_event (Tcgetattr fd (-1)) w))
  end.

Definition prompt (n : Z) : Sh unit := call (Prompt n).
Definition printf (s : string) : Sh unit := call (Printf s).
Definition eprintf (s : string) : Sh unit := call (Eprintf s).

(** [perror] reports the current [errno] under the given prefix. *)
Definition perror (prefix : option string) : Sh unit := fun w =>
  Ret tt (record_event (Perror prefix (w_errno w)) w).

(** [getcwd(buf, size)]: fails when the name with its NUL does not fit. *)
Definition getcwd (size : nat) : Sh (option string) := fun w =>
  match k_getcwd K (w_sys w) (w_cwd w) with
  | Some e => Ret None (set_errno e (record_event (Getcwd None) w))
  | None =>
      if (String.length (w_cwd w) <? size)%nat
      then Ret (Some (w_cwd w)) (record_event (Getcwd (Some (w_cwd w))) w)
      else Ret None (set_errno ERANGE (record_event (Getcwd None) w))
  end.

Definition getenv (name : string) : Sh (option string) := fun w =>
  let r := w_environ w !! name in
  Ret r (record_event (Getenv name r) w).

(** [chdir]: on success the working directory becomes the directory the
    path leads to; on failure only [errno] changes. *)
Definition chdir (path : option string) : Sh Z := fun w =>
  match path with
  | None => Ret (-1) (set_errno EFAULT (record_event (Chdir None (-1)) w))
  | Some p =>
      match k_chdir K (w_sys w) (w_cwd w) p with
      | inr d => Ret 0 (set_cwd d (record_event (Chdir path 0) w))
      | inl e => Ret (-1) (set_errno e (record_event (Chdir path (-1)) w))
      end
  end.

Definition exit {A} (status : Z) : Sh A := fun w =>
  Exited status (record_event (ExitCall status) w).

(** [execv] returns only when it fails. *)
Definition execv (path : option string) (argv : list (option string)) : Sh Z :=
  fun w =>
  match path with
  | None => Ret (-1) (set_errno EFAULT (record_event (Execv path argv (-1)) w))
  | Some p =>
      match k_execv K (w_sys w) p argv with
      | inl e => Ret (-1) (set_errno e (record_event (Execv path argv (-1)) w))
      | inr s => Execed p argv (set_sys s (record_event (Execv path argv 0) w))
      end
  end.

(** [fork]: the code after the call, [k], runs twice.  The child is a copy
    of the caller in which the call returned 0 and which has no children;
    it shares the system and the trace with the caller but not the
    caller's memory.  The caller goes on with the child's process id, or
    with -1 when no process could be created.  The child's run is placed
    before the caller's next step. *)
Definition fork {A} (k : Z -> Sh A) : Sh A := fun w =>
  match k_fork K (w_sys w) with
  | (inl e, s) => k (-1) (set_errno e (set_sys s (record_event (Fork (-1)) w)))
  | (inr p, s) =>
      let pid := Z.pos p in
      let w1 := set_sys s (record_event (Fork pid) w) in
      let wc :=
        final_world
          (k 0 (record_event (Fork 0)
                  (set_children [] (set_self (Child pid) w1)))) in
      k pid (set_children (pid :: w_children w1)
               (set_trace (w_trace wc) (set_sys (w_sys wc) w1)))
  end.

(** [wait(NULL)]: takes the completion of one child, or fails at once when
    there is none. *)
Definition wait : Sh Z := fun w =>
  match w_children w with
  | [] => Ret (-1) (set_errno ECHILD (record_event (Wait (-1)) w))
  | pid :: rest => Ret pid (set_children rest (record_event (Wait pid) w))
  end.

(** ** Builtin handlers *)

Fixpoint help_loop (tbl : list fun_desc) : Sh unit :=
  match tbl with
  | [] => ret tt
  | d :: tbl' => printf (fd_cmd d +:+ " - " +:+ fd_doc d +:+ nl) ;; help_loop tbl'
  end.

Definition cmd_help (_ : tokens) : Sh Z :=
  help_loop cmd_table ;; ret 1.

Definition cmd_exit (_ : tokens) : Sh Z := exit 0.

Definition cmd_pwd (_ : tokens) : Sh Z :=
  cwd <- getcwd 1024 ;;
  match cwd with
  | Some d => printf (d +:+ nl)
  | None => perror (Some "getcwd() error")
  end ;;
  ret 1.

Definition cmd_cd (t : tokens) : Sh Z :=
  (if (tokens_get_length t =? 1)%nat then
     home <- getenv "HOME" ;;
     match home with
     | Some h =>
         r <- chdir (Some h) ;;
         if negb (r =? 0) then perror (Some "cd") else ret tt
     | None => eprintf ("No HOME environment variable set." +:+ nl)
     end
   else
     let dir := tokens_get_token t 1 in
     r <- chdir dir ;;
     if negb (r =? 0) then perror (Some "cd") else ret tt) ;;
  ret 1.

Definition run_cmd_fun (f : cmd_fun_t) : tokens -> Sh Z :=
  match f with
  | Cmd_exit => cmd_exit
  | Cmd_help => cmd_help
  | Cmd_pwd => cmd_pwd
  | Cmd_cd => cmd_cd
  end.

(** [cmd_table[fundex].fun(tokens)].  [lookup] only yields indices of the
    table, so the second branch is never taken. *)
Definition call_cmd_table (fundex : Z) (t : tokens) : Sh Z :=
  match cmd_table !! Z.to_nat fundex with
  | Some d => run_cmd_fun (fd_fun d) t
  | None => ret 0
  end.

(** ** Initialisation *)

(** The [while] loop of [init_shell]; how often it turns is up to the
    environment, hence the fuel. *)
Fixpoint foreground_loop (fuel : nat) : Sh unit :=
  match fuel with
  | O => fun w => OutOfFuel w
  | S fuel' =>
      term <- gets shell_terminal ;;
      fg <- tcgetpgrp term ;;
      pg <- getpgrp ;;
      modify (set_shell_pgid pg) ;;
      if negb (fg =? pg) then
        pgid <- gets shell_pgid ;;
        kill (- pgid) SIGTTIN ;;
        foreground_loop fuel'
      else ret tt
  end.

Definition init_shell (fuel : nat) : Sh unit :=
  modify (set_shell_terminal STDIN_FILENO) ;;
  term <- gets shell_terminal ;;
  tty <- isatty term ;;
  modify (set_shell_is_interactive tty) ;;
  interactive <- gets shell_is_interactive ;;
  if interactive then
    foreground_loop fuel ;;
    pid <- getpid ;;
    modify (set_shell_pgid pid) ;;
    term <- gets shell_terminal ;;
    pgid <- gets shell_pgid ;;
    tcsetpgrp term pgid ;;
    term <- gets shell_terminal ;;
    tcgetattr_shell_tmodes term ;;
    ret tt
  else ret tt.

(** ** The loop *)

(** The [for] loop that copies the tokens into [argv_exec], entered at
    index [i] with [n] rounds to go. *)
Fixpoint fill_argv (t : tokens) (i n : nat) (argv_exec : list (option string))
  : list (option string) :=
  match n with
  | O => argv_exec
  | S n' => fill_argv t (S i) n' (<[i := tokens_get_token t i]> argv_exec)
  end.

(** The branch [pid == 0].  [argv_exec] is a fresh array of
    [num_tokens + 1] pointers, every one of which is written before it is
    read. *)
Definition child_branch (t : tokens) : Sh unit :=
  let num_tokens := tokens_get_length t in
  let argv_exec := replicate (num_tokens + 1) None in
  let argv_exec := fill_argv t 0 num_tokens argv_exec in
  let argv_exec := <[num_tokens := None]> argv_exec in
  let argv0 := default None (argv_exec !! 0%nat) in
  execv argv0 argv_exec ;;
  perror argv0 ;;
  exit EXIT_FAILURE.

Definition parent_branch : Sh unit := wait ;; ret tt.

(** The body of the [while] loop for one line read. *)
Definition loop_body (line : string) (line_num : Z) : Sh Z :=
  let t := tokenize line in
  let fundex := lookup (tokens_get_token t 0) in
  (if fundex >=? 0 then call_cmd_table fundex t ;; ret tt
   else fork (fun pid => if pid =? 0 then child_branch t else parent_branch)) ;;
  interactive <- gets shell_is_interactive ;;
  if interactive then
    let line_num := int_wrap (line_num + 1) in
    prompt line_num ;; ret line_num
  else ret line_num.

(** [while (fgets(line, 4096, stdin))] over [input], the successive results
    of [fgets] up to end of input, where it returns [NULL]. *)
Fixpoint read_loop (input : list string) (line_num : Z) : Sh Z :=
  match input with
  | [] => call (Fgets None) ;; ret 0
  | line :: rest =>
      call (Fgets (Some line)) ;;
      line_num <- loop_body line line_num ;;
      read_loop rest line_num
  end.

Definition main (fuel : nat) (input : list string) : Sh Z :=
  init_shell fuel ;;
  let line_num := 0 in
  interactive <- gets shell_is_interactive ;;
  (if interactive then prompt line_num else ret tt) ;;
  read_loop input line_num.

End Shell.

(** ** A small system for concrete runs *)

(** Modelled from the spec: the characters that separate the words of a
    line in the token source used for the examples (glossary, "Token: one
    whitespace-delimited word"); the tokenizer itself is not part of the
    sources. *)
Definition is_space (c : ascii) : bool :=
  bool_decide (c = " "%char) || bool_decide (c = ascii_of_nat 10)
  || bool_decide (c = ascii_of_nat 9).

(** Modelled from the spec: splitting into whitespace-delimited words,
    [cur] being the word under way. *)
Fixpoint words_from (s cur : string) : list string :=
  match s with
  | EmptyString => if bool_decide (cur = "") then [] else [cur]
  | String c r =>
      if is_space c
      then (if bool_decide (cur = "") then words_from r ""
            else cur :: words_from r "")
      else words_from r (cur +:+ String c "")
  end.

(** Modelled from the spec: a token source for the examples; the theorems
    hold for every [tokenize]. *)
Definition words (line : string) : tokens := words_from line "".

(** A system whose state counts the stop signals sent so far.  The
    terminal's foreground group is the shell's group (7) from the
    [stops]-th signal on; [/home/u], [/tmp] and [/] are the directories
    and [/bin/true] the only program. *)
Definition demo_kernel (tty : bool) (stops : nat) (tc_fail fork_fail : bool)
  : kernel :=
  {| sys := nat;
     k_isatty := fun _ _ => tty;
     k_tcgetpgrp := fun s _ => if (s <? stops)%nat then 99 else 7;
     k_getpgrp := fun _ => 7;
     k_getpid := fun _ => 7;
     k_kill := fun s _ _ => S s;
     k_tcsetpgrp := fun s _ _ => (if tc_fail then Some 25 else None, s);
     k_tcgetattr := fun _ _ =>
       if tc_fail then inl 25 else inr (Termios 1 2 3 4);
     k_getcwd := fun _ _ => None;
     k_chdir := fun _ _ p =>
       if bool_decide (p ∈ ["/home/u"; "/tmp"; "/"]) then inr p else inl 2;
     k_fork := fun s => (if fork_fail then inl 11 else inr 100%positive, s);
     k_execv := fun s p _ =>
       if bool_decide (p = "/bin/true") then inr s else inl 2 |}.

(** A process at the start of [main]: globals zeroed, no children, nothing
    recorded yet. *)
Definition start_world (K : kernel) (s : sys K) (cwd : string)
    (env : gmap string string) : world K :=
  @World K s Parent 0 cwd env [] [] false 0 (Termios 0 0 0 0) 0.

Definition demo_world (tty : bool) (stops : nat) (tc_fail fork_fail : bool)
    (home : option string) : world (demo_kernel tty stops tc_fail fork_fail) :=
  start_world (demo_kernel tty stops tc_fail fork_fail) O "/tmp"
    (match home with Some h => {[ "HOME" := h ]} | None => ∅ end).

(** ** Reading traces *)

(** The prompts and the reads of the shell, in the order they happen. *)
Definition is_loop_event (pe : proc * event) : bool :=
  match pe with
  | (Parent, Prompt _) | (Parent, Fgets _) => true
  | _ => false
  end.

Definition loop_view (tr : list (proc * event)) : list (proc * event) :=
  filter (fun pe => is_loop_event pe = true) tr.

(** Reads numbered from [k], each one preceded by a prompt showing its
    number when [interactive]. *)
Fixpoint prompted_reads (interactive : bool) (k : Z) (rs : list (option string))
  : list (proc * event) :=
  match rs with
  | [] => []
  | r :: rs' =>
      (if interactive then [(Parent, Prompt (int_wrap k))] else [])
      ++ (Parent, Fgets r) :: prompted_reads interactive (k + 1) rs'
  end.

(** What is written on standard error, by any process. *)
Definition is_stderr (pe : proc * event) : bool :=
  match pe with
  | (_, Perror _ _) | (_, Eprintf _) => true
  | _ => false
  end.

Definition stderr_view (tr : list (proc * event)) : list (proc * event) :=
  filter (fun pe => is_stderr pe = true) tr.

(** Children created and completions taken by the shell. *)
Definition is_spawn (pe : proc * event) : bool :=
  match pe with
  | (Parent, Fork r) => 0 <? r
  | _ => false
  end.

Definition is_wait (pe : proc * event) : bool :=
  match pe with
  | (Parent, Wait _) => true
  | _ => false
  end.

Definition count_events (f : proc * event -> bool) (tr : list (proc * event))
  : nat :=
  length (filter (fun pe => f pe = true) tr).

(** The failed calls that the program answers with a message: a failed
    [chdir], [getcwd] or [execv], and a [getenv] that finds nothing. *)
Definition is_failed_call (pe : proc * event) : bool :=
  match pe with
  | (_, Chdir _ r) => r <? 0
  | (_, Getcwd None) => true
  | (_, Execv _ _ r) => r <? 0
  | (_, Getenv _ None) => true
  | _ => false
  end.

(** The message for such a call, [e] being its [errno]; it is written by
    the process that made the call. *)
Definition report_of (pe : proc * event) (e : Z) : proc * event :=
  match pe with
  | (p, Chdir _ _) => (p, Perror (Some "cd") e)
  | (p, Getcwd _) => (p, Perror (Some "getcwd() error") e)
  | (p, Execv path _ _) => (p, Perror path e)
  | (p, Getenv _ _) =>
      (p, Eprintf ("No HOME environment variable set." +:+ nl))
  | _ => pe
  end.

Section Environment.

Context {K : kernel}.

(** The system after [n] rounds of the loop of [init_shell], each of which
    stops the shell's group until it is continued. *)
Fixpoint sys_after_stops (n : nat) (s : sys K) : sys K :=
  match n with
  | O => s
  | S n' => sys_after_stops n' (k_kill K s (- k_getpgrp K s) SIGTTIN)
  end.

(** The terminal's foreground group is the shell's group after exactly [n]
    such rounds, and not earlier. *)
Fixpoint foreground_after (n : nat) (s : sys K) : bool :=
  match n with
  | O => k_tcgetpgrp K s STDIN_FILENO =? k_getpgrp K s
  | S n' =>
      negb (k_tcgetpgrp K s STDIN_FILENO =? k_getpgrp K s)
      && foreground_after n' (k_kill K s (- k_getpgrp K s) SIGTTIN)
  end.

(** The calls of those [n] rounds. *)
Fixpoint stop_rounds (n : nat) (s : sys K) : list (proc * event) :=
  match n with
  | O => []
  | S n' =>
      [ (Parent, Tcgetpgrp STDIN_FILENO (k_tcgetpgrp K s STDIN_FILENO));
        (Parent, Getpgrp (k_getpgrp K s));
        (Parent, Kill (- k_getpgrp K s) SIGTTIN) ]
      ++ stop_rounds n' (k_kill K s (- k_getpgrp K s) SIGTTIN)
  end.

(** What [chdir(path)] followed by the test of its result leaves behind,
    [pre] being the calls made before it: on success the working directory
    is the one the path leads to and nothing is reported; on failure the
    working directory is as before and [perror("cd")] reports the error. *)
Definition chdir_outcome (w w' : world K) (path : string)
    (pre : list (proc * event)) : Prop :=
  match k_chdir K (w_sys w) (w_cwd w) path with
  | inr d =>
      w_cwd w' = d /\
      w_trace w' = w_trace w ++ pre ++ [(w_self w, Chdir (Some path) 0)]
  | inl e =>
      w_cwd w' = w_cwd w /\
      w_trace w' = w_trace w ++ pre ++
        [(w_self w, Chdir (Some path) (-1)); (w_self w, Perror (Some "cd") e)]
  end.

(** The calls of [init_shell] on a terminal that becomes the shell's after
    [n] rounds: the rounds, the check that succeeds, then [getpid],
    [tcsetpgrp] and [tcgetattr] with whatever they return. *)
Definition tcsetpgrp_result (s : sys K) (fd pgid : Z) : Z :=
  match fst (k_tcsetpgrp K s fd pgid) with
  | None => 0
  | Some _ => -1
  end.

Definition tcgetattr_result (s : sys K) (fd : Z) : Z :=
  match k_tcgetattr K s fd with
  | inr _ => 0
  | inl _ => -1
  end.

Definition acquire_events (n : nat) (s : sys K) : list (proc * event) :=
  let s1 := sys_after_stops n s in
  let pid := k_getpid K s1 in
  let s2 := snd (k_tcsetpgrp K s1 STDIN_FILENO pid) in
  stop_rounds n s ++
  [ (Parent, Tcgetpgrp STDIN_FILENO (k_tcgetpgrp K s1 STDIN_FILENO));
    (Parent, Getpgrp (k_getpgrp K s1));
    (Parent, Getpid pid);
    (Parent, Tcsetpgrp STDIN_FILENO pid (tcsetpgrp_result s1 STDIN_FILENO pid));
    (Parent, Tcgetattr STDIN_FILENO (tcgetattr_result s2 STDIN_FILENO)) ].

(** What initialisation leaves alone. *)
Definition same_process (w w' : world K) : Prop :=
  w_self w' = w_self w /\ w_children w' = w_children w /\
  w_cwd w' = w_cwd w /\ w_environ w' = w_environ w.

(** [Some e] when [execv(path, argv)] fails with [errno] [e].  A [NULL]
    path is a bad address. *)
Definition execv_errno (s : sys K) (path : option string)
    (argv : list (option string)) : option Z :=
  match path with
  | None => Some EFAULT
  | Some p =>
      match k_execv K s p argv with
      | inl e => Some e
      | inr _ => None
      end
  end.

(** The calls of a child [pid] that runs the branch [pid == 0] of [main]:
    [execv], and when that fails with [e], [perror(path)] and
    [exit(EXIT_FAILURE)]. *)
Definition child_run_events (pid : Z) (path : option string)
    (argv : list (option string)) (failure : option Z) : list (proc * event) :=
  (Child pid, Fork 0) ::
  match failure with
  | None => [(Child pid, Execv path argv 0)]
  | Some e =>
      [ (Child pid, Execv path argv (-1));
        (Child pid, Perror path e);
        (Child pid, ExitCall EXIT_FAILURE) ]
  end.

(** The calls of the shell on the path that spawns, by the result of
    [fork]. *)
Definition spawn_events (w : world K) (t : tokens) : list (proc * event) :=
  let argv := (Some <$> t) ++ [None] in
  let path := tokens_get_token t 0 in
  match k_fork K (w_sys w) with
  | (inr p, s) =>
      (Parent, Fork (Z.pos p))
      :: child_run_events (Z.pos p) path argv (execv_errno s path argv)
      ++ [(Parent, Wait (Z.pos p))]
  | (inl _, _) => [(Parent, Fork (-1)); (Parent, Wait (-1))]
  end.

(** The calls of the handlers, made by the shell itself. *)
Definition help_events : list (proc * event) :=
  (fun d => (Parent, Printf (fd_cmd d +:+ " - " +:+ fd_doc d +:+ nl)))
    <$> cmd_table.

Definition pwd_events (w : world K) : list (proc * event) :=
  match k_getcwd K (w_sys w) (w_cwd w) with
  | Some e =>
      [(Parent, Getcwd None); (Parent, Perror (Some "getcwd() error") e)]
  | None =>
      if (String.length (w_cwd w) <? 1024)%nat
      then [(Parent, Getcwd (Some (w_cwd w))); (Parent, Printf (w_cwd w +:+ nl))]
      else [(Parent, Getcwd None);
            (Parent, Perror (Some "getcwd() error") ERANGE)]
  end.

Definition chdir_events (w : world K) (path : option string)
  : list (proc * event) :=
  match path with
  | None => [(Parent, Chdir None (-1)); (Parent, Perror (Some "cd") EFAULT)]
  | Some p =>
      match k_chdir K (w_sys w) (w_cwd w) p with
      | inr _ => [(Parent, Chdir path 0)]
      | inl e => [(Parent, Chdir path (-1)); (Parent, Perror (Some "cd") e)]
      end
  end.

Definition cd_events (w : world K) (t : tokens) : list (proc * event) :=
  if (tokens_get_length t =? 1)%nat then
    match w_environ w !! "HOME" with
    | Some h => (Parent, Getenv "HOME" (Some h)) :: chdir_events w (Some h)
    | None =>
        [(Parent, Getenv "HOME" None);
         (Parent, Eprintf ("No HOME environment variable set." +:+ nl))]
    end
  else chdir_events w (tokens_get_token t 1).

(** The calls one command gives rise to, by the index [lookup] finds for
    its first token. *)
Definition command_events (w : world K) (t : tokens) : list (proc * event) :=
  let fundex := lookup (tokens_get_token t 0) in
  if fundex =? 0 then [(Parent, ExitCall 0)]
  else if fundex =? 1 then help_events
  else if fundex =? 2 then pwd_events w
  else if fundex =? 3 then cd_events w t
  else spawn_events w t.

(** The prompt that ends a round of the loop, and the counter after it. *)
Definition prompt_events (w : world K) (line_num : Z) : list (proc * event) :=
  if shell_is_interactive w
  then [(Parent, Prompt (int_wrap (line_num + 1)))] else [].

Definition next_line_num (w : world K) (line_num : Z) : Z :=
  if shell_is_interactive w then int_wrap (line_num + 1) else line_num.

(** The shell process between two commands: it is the parent and has no
    child left to wait for. *)
Definition at_rest (w : world K) : Prop :=
  w_self w = Parent /\ w_children w = [].

Context (tokenize : string -> tokens).

(** Lines that name the [exit] builtin, and lines that name no builtin. *)
Definition is_exit_line (line : string) : bool :=
  lookup (tokens_get_token (tokenize line) 0) =? 0.

Definition is_external_line (line : string) : bool :=
  lookup (tokens_get_token (tokenize line) 0) =? -1.

(** The first line of the input that names [exit], if any. *)
Fixpoint first_exit (input : list string) : option string :=
  match input with
  | [] => None
  | line :: rest => if is_exit_line line then Some line else first_exit rest
  end.

(** The results of [fgets] that the loop gets to see: the lines up to the
    first [exit] line, or all of them and then [NULL]. *)
Fixpoint reads_of (input : list string) : list (option string) :=
  match input with
  | [] => [None]
  | line :: rest =>
      Some line :: (if is_exit_line line then [] else reads_of rest)
  end.

(** The last calls of a session: the read of the [exit] line and the call
    of [exit], or the read that meets the end of input. *)
Definition final_calls (input : list string) : list (proc * event) :=
  match first_exit input with
  | Some line => [(Parent, Fgets (Some line)); (Parent, ExitCall 0)]
  | None => [(Parent, Fgets None)]
  end.

(** [init_shell] gets through its loop: off a terminal there is no loop;
    on one, the foreground group is the shell's after [n] rounds and the
    fuel allows for them. *)
Definition init_completes (n fuel : nat) (w : world K) : Prop :=
  k_isatty K (w_sys w) STDIN_FILENO = true ->
  foreground_after n (w_sys w) = true /\ (n < fuel)%nat.

End Environment.

(** ** Further readings of traces *)

(** The calls of a trace made by the shell itself. *)
Definition parent_events (tr : list (proc * event)) : list event :=
  omap (fun pe => match pe with (Parent, e) => Some e | _ => None end) tr.

(** Calls that belong to running a program: anything a child does, and
    [fork], [execv] and [wait] by whoever makes them. *)
Definition is_process_call (pe : proc * event) : bool :=
  match pe with
  | (Child _, _) => true
  | (_, Fork _) | (_, Execv _ _ _) | (_, Wait _) => true
  | _ => false
  end.

Section Stopped.

Context {K : kernel}.

(** In each of the first [n] rounds of the loop of [init_shell] the
    terminal's foreground group is not the shell's group. *)
Fixpoint background_for (n : nat) (s : sys K) : bool :=
  match n with
  | O => true
  | S n' =>
      negb (k_tcgetpgrp K s STDIN_FILENO =? k_getpgrp K s)
      && background_for n' (k_kill K s (- k_getpgrp K s) SIGTTIN)
  end.

(** The memory of the shell that a command it spawns cannot reach. *)
Definition same_memory (w w' : world K) : Prop :=
  w_cwd w' = w_cwd w /\ w_environ w' = w_environ w /\
  shell_is_interactive w' = shell_is_interactive w /\
  shell_terminal w' = shell_terminal w /\
  shell_tmodes w' = shell_tmodes w /\
  shell_pgid w' = shell_pgid w.

End Stopped.

(** ** The calls of a whole session *)

Section SessionTrace.

Context {K : kernel} (tokenize : string -> tokens).

(** Whether the first token, compared as [strcmp] does, is [exit]. *)
Definition names_exit (t : tokens) : bool :=
  match tokens_get_token t 0 with
  | Some name => strcmp "exit" name =? 0
  | None => false
  end.

(** The calls one command gives rise to, by the name its first token
    compares equal to: the four builtins under their names, and the path
    that spawns for any other token and for no token. *)
Definition named_events (w : world K) (t : tokens) : list (proc * event) :=
  match tokens_get_token t 0 with
  | Some name =>
      if strcmp "exit" name =? 0 then [(Parent, ExitCall 0)]
      else if strcmp "?" name =? 0 then help_events
      else if strcmp "pwd" name =? 0 then pwd_events w
      else if strcmp "cd" name =? 0 then cd_events w t
      else spawn_events w t
  | None => spawn_events w t
  end.

(** All the calls of the loop on [input], from the world [w] with the
    counter at [n]: for each line its read, the calls of its command in
    the world that the rounds before it have left, and the prompt if the
    session is interactive; it stops after an [exit] line, and otherwise
    ends with the read that meets the end of input. *)
Fixpoint session_events (input : list string) (n : Z) (w : world K)
  : list (proc * event) :=
  match input with
  | [] => [(Parent, Fgets None)]
  | line :: rest =>
      let w0 := record_event (Fgets (Some line)) w in
      (Parent, Fgets (Some line)) ::
      named_events w0 (tokenize line) ++
      if names_exit (tokenize line) then []
      else
        prompt_events w n ++
        session_events rest (next_line_num w n)
          (final_world (loop_body tokenize line n w0))
  end.

End SessionTrace.

(** A system with no controlling terminal behind a descriptor that
    [isatty] accepts: [tcgetpgrp] fails, whatever the shell does. *)
Definition no_terminal_kernel : kernel :=
  {| sys := nat;
     k_isatty := fun _ _ => true;
     k_tcgetpgrp := fun _ _ => -1;
     k_getpgrp := fun _ => 7;
     k_getpid := fun _ => 7;
     k_kill := fun s _ _ => S s;
     k_tcsetpgrp := fun s _ _ => (Some 25, s);
     k_tcgetattr := fun _ _ => inl 25;
     k_getcwd := fun _ _ => None;
     k_chdir := fun _ _ p => inr p;
     k_fork := fun s => (inr 100%positive, s);
     k_execv := fun s _ _ => inr s |}.

(** * Properties *)

(** ** The registry *)

Lemma uchar_inj c1 c2 : uchar c1 = uchar c2 -> c1 = c2.
Proof.
  unfold uchar. intros H. apply N2Z.inj in H.
  rewrite <- (ascii_N_embedding c1), <- (ascii_N_embedding c2). by rewrite H.
Qed.

(** On C strings [strcmp] is 0 exactly for equal strings. *)
Lemma strcmp_eq s1 : forall s2,
  is_cstring s1 = true -> is_cstring s2 = true ->
  (strcmp s1 s2 = 0 <-> s1 = s2).
Proof.
  induction s1 as [|c1 r1 IH]; intros [|c2 r2]; simpl; intros H1 H2.
  - done.
  - apply andb_true_iff in H2 as [H2 _]. apply negb_true_iff, Z.eqb_neq in H2.
    split; [lia | done].
  - apply andb_true_iff in H1 as [H1 _]. apply negb_true_iff, Z.eqb_neq in H1.
    split; [lia | done].
  - apply andb_true_iff in H1 as [H1 H1'], H2 as [H2 H2'].
    apply negb_true_iff in H1. rewrite H1.
    destruct (Z.eqb_spec (uchar c1) (uchar c2)) as [E|E].
    + apply uchar_inj in E as ->. rewrite (IH r2 H1' H2').
      split; [by intros -> | by intros [= ->]].
    + split; [lia | intros [= -> _]; done].
Qed.

Lemma entry_matches_decide d cmd :
  is_cstring (fd_cmd d) = true -> is_cstring cmd = true ->
  entry_matches d (Some cmd) = bool_decide (fd_cmd d = cmd).
Proof.
  intros Hd Hc. simpl.
  destruct (Z.eqb_spec (strcmp (fd_cmd d) cmd) 0) as [E|E];
    rewrite strcmp_eq in E by done; symmetry.
  - by apply bool_decide_eq_true.
  - by apply bool_decide_eq_false.
Qed.

(** [lookup] as a case distinction on the name. *)
Lemma lookup_cases cmd :
  is_cstring cmd = true ->
  lookup (Some cmd) =
    if bool_decide ("exit" = cmd) then 0
    else if bool_decide ("?" = cmd) then 1
    else if bool_decide ("pwd" = cmd) then 2
    else if bool_decide ("cd" = cmd) then 3
    else -1.
Proof.
  intros Hc. unfold lookup, cmd_table, lookup_from.
  rewrite !entry_matches_decide by done. reflexivity.
Qed.

(** [lookup] yields -1 or an index of the table. *)
Lemma lookup_from_range tbl i cmd :
  lookup_from tbl i cmd = -1 \/
  i <= lookup_from tbl i cmd < i + Z.of_nat (length tbl).
Proof.
  revert i. induction tbl as [|d tbl IH]; intros i; simpl; [by left|].
  destruct (entry_matches d cmd); [right; lia|].
  destruct (IH (i + 1)) as [->|H]; [by left | right; lia].
Qed.

Lemma lookup_range cmd : lookup cmd = -1 \/ 0 <= lookup cmd < 4.
Proof. apply (lookup_from_range cmd_table 0 cmd). Qed.

(** C1 (as amended): the registry holds exactly the four names [exit],
    [?], [pwd] and [cd], in this order.  For a C string [cmd], [lookup]
    returns the index of an entry exactly when [cmd] is that entry's name,
    compared byte for byte, and -1 when [cmd] is none of the four names;
    an absent first token ([NULL]) gives -1. *)
Theorem lookup_registry (cmd : string) :
  is_cstring cmd = true ->
  map fd_cmd cmd_table = ["exit"; "?"; "pwd"; "cd"] /\
  lookup None = -1 /\
  (forall (i : nat) d, cmd_table !! i = Some d ->
     (lookup (Some cmd) = Z.of_nat i <-> cmd = fd_cmd d)) /\
  ((forall d, d ∈ cmd_table -> cmd <> fd_cmd d) -> lookup (Some cmd) = -1).
Proof.
  intros Hc. split; [reflexivity|]. split; [reflexivity|].
  rewrite lookup_cases by done. split.
  - intros i d Hi.
    destruct i as [|[|[|[|i]]]]; simpl in Hi; try done;
      injection Hi as <-; simpl;
      repeat case_bool_decide; subst; split; intros; try done; try lia.
  - intros Hn. apply Forall_forall in Hn. unfold cmd_table in Hn.
    repeat (apply Forall_cons in Hn as [? Hn]). simpl in *.
    repeat case_bool_decide; congruence.
Qed.

Lemma lookup_registry_witness :
  is_cstring "pwd" = true /\ lookup (Some "pwd") = 2 /\ lookup (Some "PWD") = -1.
Proof.
  split; [reflexivity|].
  destruct (lookup_registry "pwd" eq_refl) as (_ & _ & Hidx & _).
  destruct (lookup_registry "PWD" eq_refl) as (_ & _ & _ & Hnone).
  split.
  - apply (Hidx 2%nat (Fun_desc Cmd_pwd "pwd" "prints working directory")
             eq_refl). reflexivity.
  - apply Hnone. intros d Hd. vm_compute in Hd.
    repeat (apply elem_of_cons in Hd as [->|Hd]; [done|]).
    by apply elem_of_nil in Hd.
Defined.

(** C1, as stated, fails at the name [help]: it is not in the table (the
    help command is registered under [?]) and [lookup] answers
    not-found. *)
Lemma lookup_help_not_found :
  lookup (Some "help") = -1 /\
  ~ (exists d, d ∈ cmd_table /\ fd_cmd d = "help").
Proof.
  split; [reflexivity|].
  intros (d & Hd & Hn). unfold cmd_table in Hd.
  repeat (apply elem_of_cons in Hd as [->|Hd]; [done|]).
  by apply elem_of_nil in Hd.
Qed.

(** ** The handlers *)

Section Handlers.

Context {K : kernel}.
Implicit Types (w : world K) (t : tokens).

(** C4: [cd] alone goes to the directory named by [HOME], and when [HOME]
    is unset prints a message on standard error and leaves the working
    directory alone; [cd path] goes to [path]; whenever [chdir] fails the
    failure is reported with [perror] and the working directory is
    unchanged.  The handler returns in every case. *)
Theorem cmd_cd_changes_directory (c : string) (args : list string) w :
  exists w',
    cmd_cd (c :: args) w = Ret 1 w' /\
    match args with
    | [] =>
        match w_environ w !! "HOME" with
        | Some h =>
            chdir_outcome w w' h [(w_self w, Getenv "HOME" (Some h))]
        | None =>
            w_cwd w' = w_cwd w /\
            w_trace w' = w_trace w ++
              [(w_self w, Getenv "HOME" None);
               (w_self w, Eprintf ("No HOME environment variable set." +:+ nl))]
        end
    | a :: _ => chdir_outcome w w' a []
    end.
Proof.
  unfold cmd_cd, chdir_outcome, bind, getenv, chdir, perror, eprintf, call,
    modify, ret.
  destruct args as [|a args]; simpl.
  - destruct (w_environ w !! "HOME") as [h|]; simpl.
    + destruct (k_chdir K (w_sys w) (w_cwd w) h) as [e|d]; simpl;
        eexists; (split; [reflexivity|]); simpl;
        by rewrite <- ?app_assoc.
    + eexists; (split; [reflexivity|]); simpl; by rewrite <- ?app_assoc.
  - destruct (k_chdir K (w_sys w) (w_cwd w) a) as [e|d]; simpl;
      eexists; (split; [reflexivity|]); simpl; by rewrite <- ?app_assoc.
Qed.

End Handlers.

(** ** The argument vector *)

Lemma fill_argv_length t : forall n i arr,
  length (fill_argv t i n arr) = length arr.
Proof.
  induction n as [|n IH]; intros i arr; simpl; [done|].
  by rewrite IH, length_insert.
Qed.

(** After the loop, the slots [i .. i+n-1] hold the tokens of the same
    index and the other slots are as before. *)
Lemma fill_argv_lookup t : forall n i arr j,
  fill_argv t i n arr !! j =
    if bool_decide ((i <= j < i + n)%nat /\ (j < length arr)%nat)
    then Some (tokens_get_token t j) else arr !! j.
Proof.
  induction n as [|n IH]; intros i arr j; simpl.
  - rewrite bool_decide_false by lia. done.
  - rewrite IH, length_insert.
    destruct (decide (j = i)) as [->|Hne].
    + rewrite (bool_decide_false (_ /\ _)) by lia.
      case_bool_decide as Hi.
      * by rewrite list_lookup_insert_eq by lia.
      * by rewrite list_insert_ge by lia.
    + rewrite list_lookup_insert_ne by done.
      repeat case_bool_decide; done || lia.
Qed.

(** The vector passed to [execv]: the tokens in order, then [NULL],
    whatever the fresh array held. *)
Lemma argv_exec_built t (arr : list (option string)) :
  length arr = S (length t) ->
  <[length t := None]> (fill_argv t 0 (length t) arr) = (Some <$> t) ++ [None].
Proof.
  intros Hlen. apply list_eq. intros j.
  destruct (decide (j = length t)) as [->|Hne].
  - rewrite list_lookup_insert_eq by (rewrite fill_argv_length; lia).
    rewrite lookup_app_r by (rewrite length_fmap; lia).
    by rewrite length_fmap, Nat.sub_diag.
  - rewrite list_lookup_insert_ne by done. rewrite fill_argv_lookup.
    case_bool_decide as Hj.
    + rewrite lookup_app_l by (rewrite length_fmap; lia).
      rewrite list_lookup_fmap. unfold tokens_get_token, tokens.
      destruct (t !! j) eqn:E; [done|].
      apply lookup_ge_None in E. lia.
    + rewrite !lookup_ge_None_2; [done| |lia].
      rewrite length_app, length_fmap. simpl. lia.
Qed.

(** ** The child *)

Section Loop.

Context {K : kernel} (tokenize : string -> tokens).
Implicit Types (w : world K) (t : tokens).

Lemma bind_Ret {A B} (c : M K A) (f : A -> M K B) w a w1 :
  c w = Ret a w1 -> bind c f w = f a w1.
Proof. intros H. unfold bind. by rewrite H. Qed.

Lemma argv0_is_first_token t :
  default None (((Some <$> t) ++ [None]) !! 0%nat) = tokens_get_token t 0.
Proof. by destruct t. Qed.

(** The branch [pid == 0]: [execv] is called with the first token as path
    and the tokens followed by [NULL] as vector; it either replaces the
    image, or fails, and then the error is reported under the path's name
    and the process exits with [EXIT_FAILURE]. *)
Lemma child_branch_run t w :
  let argv := (Some <$> t) ++ [None] in
  let path := tokens_get_token t 0 in
  child_branch t w =
    match path with
    | Some p =>
        match k_execv K (w_sys w) p argv with
        | inr s => Execed p argv (set_sys s (record_event (Execv path argv 0) w))
        | inl e =>
            Exited EXIT_FAILURE
              (record_event (ExitCall EXIT_FAILURE)
                 (record_event (Perror path e)
                    (set_errno e (record_event (Execv path argv (-1)) w))))
        end
    | None =>
        Exited EXIT_FAILURE
          (record_event (ExitCall EXIT_FAILURE)
             (record_event (Perror None EFAULT)
                (set_errno EFAULT (record_event (Execv None argv (-1)) w))))
    end.
Proof.
  intros argv path. unfold child_branch, tokens_get_length.
  rewrite argv_exec_built by (rewrite length_replicate; lia).
  rewrite argv0_is_first_token. fold argv path.
  unfold bind, execv, perror, exit.
  destruct path as [p|]; [|done].
  by destruct (k_execv K (w_sys w) p argv).
Qed.

(** The trace a child leaves. *)
Lemma child_branch_trace t w pid :
  w_self w = Child pid ->
  w_trace (final_world (child_branch t (record_event (Fork 0) w))) =
    w_trace w ++
    child_run_events pid (tokens_get_token t 0) ((Some <$> t) ++ [None])
      (execv_errno (w_sys w) (tokens_get_token t 0) ((Some <$> t) ++ [None])).
Proof.
  intros Hself. rewrite child_branch_run. unfold child_run_events, execv_errno.
  destruct (tokens_get_token t 0) as [p|]; simpl.
  - destruct (k_execv K (w_sys w) p _); simpl; rewrite Hself;
      by rewrite <- ?app_assoc.
  - rewrite Hself. by rewrite <- ?app_assoc.
Qed.

(** ** One round of the loop *)

(** A line that names no builtin: one [fork], the child's run when there
    is a child, one [wait], then the prompt. *)
Lemma loop_body_spawn line n w :
  at_rest w ->
  is_external_line tokenize line = true ->
  exists w',
    loop_body tokenize line n w = Ret (next_line_num w n) w' /\
    at_rest w' /\
    shell_is_interactive w' = shell_is_interactive w /\
    w_cwd w' = w_cwd w /\
    w_trace w' =
      w_trace w ++ spawn_events w (tokenize line) ++ prompt_events w n.
Proof.
  intros [Hself Hkids] Hext. apply Z.eqb_eq in Hext.
  unfold loop_body. rewrite Hext. simpl.
  unfold spawn_events, prompt_events, next_line_num, at_rest.
  unfold bind at 1. unfold fork.
  destruct (k_fork K (w_sys w)) as [[e|p] s]; simpl.
  - unfold parent_branch, bind, wait, gets, prompt, call, modify, ret. simpl.
    rewrite Hkids. simpl.
    destruct (shell_is_interactive w) eqn:Hi; simpl;
      eexists; (split; [reflexivity|]); unfold record_event; simpl;
      rewrite Hself, <- ?app_assoc; done.
  - pose proof (child_branch_trace (tokenize line)
      (set_children [] (set_self (Child (Z.pos p))
         (set_sys s (record_event (Fork (Z.pos p)) w)))) (Z.pos p) eq_refl)
      as Htr.
    rewrite Htr. clear Htr.
    set (sc := w_sys (final_world _)). clearbody sc.
    unfold bind, gets, prompt, call, modify, ret. simpl.
    destruct (shell_is_interactive w) eqn:Hi; simpl;
      eexists; (split; [reflexivity|]); unfold record_event; simpl;
      rewrite Hself, <- ?app_assoc; simpl; rewrite <- ?app_assoc; done.
Qed.

(** The handlers return, and leave the calls listed for them. *)
Lemma cmd_help_run t w :
  w_self w = Parent ->
  exists w',
    cmd_help t w = Ret 1 w' /\
    w_self w' = Parent /\ w_children w' = w_children w /\
    shell_is_interactive w' = shell_is_interactive w /\
    w_trace w' = w_trace w ++ help_events.
Proof.
  intros Hself.
  unfold cmd_help, help_events, bind, printf, call, modify, ret. simpl.
  eexists; (split; [reflexivity|]); unfold record_event; simpl.
  rewrite Hself, <- ?app_assoc. done.
Qed.

Lemma cmd_pwd_run t w :
  w_self w = Parent ->
  exists w',
    cmd_pwd t w = Ret 1 w' /\
    w_self w' = Parent /\ w_children w' = w_children w /\
    shell_is_interactive w' = shell_is_interactive w /\
    w_trace w' = w_trace w ++ pwd_events w.
Proof.
  intros Hself.
  unfold cmd_pwd, pwd_events, bind, getcwd, printf, perror, call, modify, ret.
  destruct (k_getcwd K (w_sys w) (w_cwd w)) as [e|]; simpl;
    [|destruct (String.length (w_cwd w) <? 1024)%nat; simpl];
    eexists; (split; [reflexivity|]); unfold record_event; simpl;
    rewrite Hself, <- ?app_assoc; done.
Qed.

Lemma cmd_cd_run t w :
  w_self w = Parent ->
  exists w',
    cmd_cd t w = Ret 1 w' /\
    w_self w' = Parent /\ w_children w' = w_children w /\
    shell_is_interactive w' = shell_is_interactive w /\
    w_trace w' = w_trace w ++ cd_events w t.
Proof.
  intros Hself.
  unfold cmd_cd, cd_events, chdir_events, bind, getenv, chdir, eprintf, perror,
    call, modify, ret.
  destruct (tokens_get_length t =? 1)%nat; simpl.
  - destruct (w_environ w !! "HOME") as [h|]; simpl;
      [destruct (k_chdir K (w_sys w) (w_cwd w) h); simpl|];
      eexists; (split; [reflexivity|]); unfold record_event; simpl;
      rewrite Hself, <- ?app_assoc; done.
  - destruct (tokens_get_token t 1) as [a|]; simpl;
      [destruct (k_chdir K (w_sys w) (w_cwd w) a); simpl|];
      eexists; (split; [reflexivity|]); unfold record_event; simpl;
      rewrite Hself, <- ?app_assoc; done.
Qed.

Lemma loop_body_exit line n w :
  is_exit_line tokenize line = true ->
  loop_body tokenize line n w = Exited 0 (record_event (ExitCall 0) w).
Proof.
  intros Hx. apply Z.eqb_eq in Hx. unfold loop_body. by rewrite Hx.
Qed.

(** The part of a round after the command. *)
Lemma loop_body_prompt n w w1 evs :
  w_self w1 = Parent ->
  shell_is_interactive w1 = shell_is_interactive w ->
  w_trace w1 = w_trace w ++ evs ->
  exists w',
    (interactive <- gets shell_is_interactive ;;
     if interactive then
       let line_num := int_wrap (n + 1) in
       prompt line_num ;; ret line_num
     else ret n) w1 = Ret (next_line_num w n) w' /\
    w_self w' = Parent /\ w_children w' = w_children w1 /\
    shell_is_interactive w' = shell_is_interactive w /\
    w_trace w' = w_trace w ++ evs ++ prompt_events w n.
Proof.
  intros Hself Hi Htr.
  unfold bind, gets, prompt, call, modify, ret, next_line_num, prompt_events.
  rewrite Hi.
  destruct (shell_is_interactive w) eqn:E; simpl;
    eexists; (split; [reflexivity|]); unfold record_event; simpl;
    rewrite Htr, ?Hself, <- ?app_assoc, ?app_nil_r; done.
Qed.

(** Every line but an [exit] line: the round returns, the shell is at rest
    again, and the trace has grown by the command's calls and the
    prompt. *)
Lemma loop_body_round line n w :
  at_rest w ->
  is_exit_line tokenize line = false ->
  exists w',
    loop_body tokenize line n w = Ret (next_line_num w n) w' /\
    at_rest w' /\
    shell_is_interactive w' = shell_is_interactive w /\
    w_trace w' =
      w_trace w ++ command_events w (tokenize line) ++ prompt_events w n.
Proof.
  intros Hrest Hx. apply Z.eqb_neq in Hx.
  destruct (lookup_range (tokens_get_token (tokenize line) 0)) as [Hl|Hl].
  - destruct (loop_body_spawn line n w Hrest) as (w' & ? & ? & ? & ? & Htr).
    { unfold is_external_line. by rewrite Hl. }
    exists w'. unfold command_events. rewrite Hl. simpl. done.
  - destruct Hrest as [Hself Hkids].
    assert (exists evs w1,
      call_cmd_table (lookup (tokens_get_token (tokenize line) 0))
        (tokenize line) w = Ret 1 w1 /\
      w_self w1 = Parent /\ w_children w1 = w_children w /\
      shell_is_interactive w1 = shell_is_interactive w /\
      w_trace w1 = w_trace w ++ evs /\
      command_events w (tokenize line) = evs) as (evs & w1 & Hc & ? & Hk & ? & ? & Hev).
    { unfold command_events, call_cmd_table.
      assert (lookup (tokens_get_token (tokenize line) 0) = 1 \/
              lookup (tokens_get_token (tokenize line) 0) = 2 \/
              lookup (tokens_get_token (tokenize line) 0) = 3)
        as [->|[->| ->]] by lia; simpl.
      - destruct (cmd_help_run (tokenize line) w Hself)
          as (w1 & ? & ? & ? & ? & ?).
        exists help_events, w1. repeat split; assumption.
      - destruct (cmd_pwd_run (tokenize line) w Hself)
          as (w1 & ? & ? & ? & ? & ?).
        exists (pwd_events w), w1. repeat split; assumption.
      - destruct (cmd_cd_run (tokenize line) w Hself)
          as (w1 & ? & ? & ? & ? & ?).
        exists (cd_events w (tokenize line)), w1.
        repeat split; assumption. }
    destruct (loop_body_prompt n w w1 evs) as (w' & Hp & ? & Hk' & ? & ?);
      [done..|].
    exists w'. unfold loop_body, at_rest.
    replace (lookup (tokens_get_token (tokenize line) 0) >=? 0) with true
      by (symmetry; apply Z.geb_le; lia).
    erewrite bind_Ret by (erewrite bind_Ret by exact Hc; reflexivity).
    split; [exact Hp|]. rewrite Hev, Hk', Hk. done.
Qed.

(** ** The whole loop *)

Lemma int_wrap_succ k : int_wrap (int_wrap k + 1) = int_wrap (k + 1).
Proof.
  unfold int_wrap. f_equal.
  replace ((k + 2 ^ 31) mod 2 ^ 32 - 2 ^ 31 + 1 + 2 ^ 31)
    with ((k + 2 ^ 31) mod 2 ^ 32 + 1) by lia.
  replace (k + 1 + 2 ^ 31) with (k + 2 ^ 31 + 1) by lia.
  by rewrite Zplus_mod_idemp_l.
Qed.

Lemma int_wrap_small k : - 2 ^ 31 <= k < 2 ^ 31 -> int_wrap k = k.
Proof. intros H. unfold int_wrap. rewrite Z.mod_small; lia. Qed.

Lemma loop_view_app tr1 tr2 :
  loop_view (tr1 ++ tr2) = loop_view tr1 ++ loop_view tr2.
Proof. apply filter_app. Qed.

Lemma loop_view_child_run pid path argv failure :
  loop_view (child_run_events pid path argv failure) = [].
Proof. by destruct failure. Qed.

Lemma loop_view_spawn w t : loop_view (spawn_events w t) = [].
Proof.
  unfold spawn_events. destruct (k_fork K (w_sys w)) as [[e|p] s]; [done|].
  unfold loop_view. rewrite filter_cons_False by (simpl; congruence).
  rewrite filter_app. fold (loop_view (child_run_events (Z.pos p)
    (tokens_get_token t 0) ((Some <$> t) ++ [None])
    (execv_errno s (tokens_get_token t 0) ((Some <$> t) ++ [None])))).
  by rewrite loop_view_child_run.
Qed.

(** A command makes no call of the loop itself. *)
Lemma loop_view_command w t : loop_view (command_events w t) = [].
Proof.
  unfold command_events.
  repeat (case_match; [reflexivity || idtac|]); try reflexivity.
  - unfold pwd_events. by repeat case_match.
  - unfold cd_events, chdir_events. by repeat case_match.
  - apply loop_view_spawn.
Qed.

Lemma loop_view_prompt w n :
  loop_view (prompt_events w n) = prompt_events w n.
Proof. unfold prompt_events. by destruct (shell_is_interactive w). Qed.

(** The loop from a shell at rest whose counter is [n], the [k]-th read
    being next: it ends by [exit] or at end of input, and its prompts and
    reads are the reads of the input, each after its prompt when the
    session is interactive (the prompt for the first read having been
    printed before). *)
Lemma read_loop_run input : forall n w,
  at_rest w ->
  exists w' evs,
    read_loop tokenize input n w =
      match first_exit tokenize input with
      | Some _ => Exited 0 w'
      | None => Ret 0 w'
      end /\
    w_self w' = Parent /\
    shell_is_interactive w' = shell_is_interactive w /\
    w_trace w' = w_trace w ++ evs ++ final_calls tokenize input /\
    forall k,
      (shell_is_interactive w = true -> n = int_wrap k) ->
      (if shell_is_interactive w then [(Parent, Prompt n)] else [])
        ++ loop_view (evs ++ final_calls tokenize input) =
        prompted_reads (shell_is_interactive w) k (reads_of tokenize input).
Proof.
  induction input as [|line rest IH]; intros n w Hrest.
  - exists (record_event (Fgets None) w), [].
    destruct Hrest as [Hself Hkids].
    unfold record_event, final_calls. simpl. rewrite Hself.
    repeat split; try done.
    + unfold bind, call, modify, ret, record_event. by rewrite Hself.
    + intros k Hn. destruct (shell_is_interactive w); [|done]. by rewrite Hn.
  - set (w0 := record_event (Fgets (Some line)) w).
    assert (at_rest w0) as Hrest0 by (destruct Hrest; by split).
    assert (w_trace w0 = w_trace w ++ [(Parent, Fgets (Some line))]) as Htr0.
    { unfold w0, record_event. simpl. by destruct Hrest as [-> _]. }
    assert (read_loop tokenize (line :: rest) n w =
            (line_num <- loop_body tokenize line n ;;
             read_loop tokenize rest line_num) w0) as -> by reflexivity.
    unfold final_calls. simpl.
    destruct (is_exit_line tokenize line) eqn:Hx; simpl.
    + exists (record_event (ExitCall 0) w0), [].
      unfold bind. rewrite loop_body_exit by done.
      destruct Hrest as [Hself _].
      unfold record_event at 3. simpl. rewrite Hself, <- app_assoc.
      repeat split; try done.
      intros k Hn. destruct (shell_is_interactive w); [|done].
      by rewrite Hn.
    + destruct (loop_body_round line n w0 Hrest0 Hx)
        as (w1 & Hb & Hrest1 & Hi1 & Htr1).
      assert (shell_is_interactive w0 = shell_is_interactive w) as Hi0
        by reflexivity.
      destruct (IH (next_line_num w0 n) w1 Hrest1)
        as (w' & evs & Hr & Hself' & Hi' & Htr' & Hview).
      exists w', ([(Parent, Fgets (Some line))]
                  ++ command_events w0 (tokenize line)
                  ++ prompt_events w0 n ++ evs).
      rewrite (bind_Ret _ _ _ _ _ Hb), Hr.
      fold (final_calls tokenize rest) in *.
      split; [done|]. split; [done|].
      split; [by rewrite Hi', Hi1|].
      split; [by rewrite Htr', Htr1, Htr0, <- !app_assoc|].
      intros k Hn.
      specialize (Hview (k + 1)).
      rewrite Hi1, Hi0 in Hview.
      rewrite <- !app_assoc.
      rewrite !loop_view_app, loop_view_command, loop_view_prompt.
      rewrite <- loop_view_app. simpl.
      rewrite <- Hview.
      * unfold prompt_events, next_line_num. rewrite Hi0.
        destruct (shell_is_interactive w) eqn:Hi; [|done].
        by rewrite (Hn eq_refl).
      * intros Hi. unfold next_line_num.
        rewrite Hi0, Hi, (Hn Hi). apply int_wrap_succ.
Qed.

End Loop.

(** ** Initialisation *)

Section Init.

Context {K : kernel}.
Implicit Types (w : world K).

(** Off a terminal, [init_shell] only records that the session is not
    interactive; no fuel is needed. *)
Lemma init_shell_notty fuel w :
  k_isatty K (w_sys w) STDIN_FILENO = false ->
  init_shell fuel w =
    Ret tt (set_shell_is_interactive false
              (record_event (Isatty STDIN_FILENO false)
                 (set_shell_terminal STDIN_FILENO w))).
Proof.
  intros Htty. unfold init_shell, bind, modify, gets, isatty. simpl.
  by rewrite Htty.
Qed.

(** The loop of [init_shell] ends once the terminal's foreground group is
    the shell's own, after the [n] rounds in which it was not. *)
Lemma foreground_loop_run n : forall fuel w,
  w_self w = Parent ->
  shell_terminal w = STDIN_FILENO ->
  foreground_after n (w_sys w) = true ->
  (n < fuel)%nat ->
  exists w',
    foreground_loop fuel w = Ret tt w' /\
    same_process w w' /\
    shell_is_interactive w' = shell_is_interactive w /\
    shell_terminal w' = STDIN_FILENO /\
    shell_tmodes w' = shell_tmodes w /\
    w_sys w' = sys_after_stops n (w_sys w) /\
    shell_pgid w' = k_getpgrp K (sys_after_stops n (w_sys w)) /\
    w_trace w' = w_trace w ++ stop_rounds n (w_sys w) ++
      [ (Parent, Tcgetpgrp STDIN_FILENO
           (k_tcgetpgrp K (sys_after_stops n (w_sys w)) STDIN_FILENO));
        (Parent, Getpgrp (k_getpgrp K (sys_after_stops n (w_sys w)))) ].
Proof.
  induction n as [|n IH]; intros [|fuel] w Hself Hterm Hfg Hfuel; try lia;
    simpl in Hfg; simpl foreground_loop;
    unfold bind, gets, tcgetpgrp, getpgrp, modify, kill; simpl; rewrite Hterm.
  - rewrite Hfg. simpl.
    eexists; (split; [reflexivity|]); unfold same_process, record_event; simpl.
    rewrite Hself, <- ?app_assoc. done.
  - apply andb_true_iff in Hfg as [Hne Hfg]. rewrite Hne. simpl.
    match goal with
    | |- context [foreground_loop fuel ?w1] =>
        destruct (IH fuel w1)
          as (w' & Hr & Hsame & Hi & Ht & Hm & Hs & Hp & Htr);
        [done | done | exact Hfg | lia |]
    end.
    exists w'. unfold same_process in *. simpl in *.
    destruct Hsame as (? & ? & ? & ?).
    repeat split; try assumption.
    rewrite Htr, Hself, <- !app_assoc. reflexivity.
Qed.

(** On a terminal that becomes the shell's after [n] rounds, [init_shell]
    returns for any fuel above [n], whatever [tcsetpgrp] and [tcgetattr]
    answer. *)
Lemma init_shell_tty n fuel w :
  w_self w = Parent ->
  k_isatty K (w_sys w) STDIN_FILENO = true ->
  foreground_after n (w_sys w) = true ->
  (n < fuel)%nat ->
  exists w',
    init_shell fuel w = Ret tt w' /\
    same_process w w' /\
    shell_is_interactive w' = true /\
    shell_terminal w' = STDIN_FILENO /\
    shell_pgid w' = k_getpid K (sys_after_stops n (w_sys w)) /\
    shell_tmodes w' =
      match
        k_tcgetattr K
          (snd (k_tcsetpgrp K (sys_after_stops n (w_sys w)) STDIN_FILENO
                  (k_getpid K (sys_after_stops n (w_sys w)))))
          STDIN_FILENO
      with
      | inr tm => tm
      | inl _ => shell_tmodes w
      end /\
    w_trace w' =
      w_trace w ++ (Parent, Isatty STDIN_FILENO true)
                   :: acquire_events n (w_sys w).
Proof.
  intros Hself Htty Hfg Hfuel.
  unfold init_shell.
  unfold bind at 1, modify at 1. unfold bind at 1, gets at 1.
  unfold bind at 1, isatty at 1. simpl. rewrite Htty.
  unfold bind at 1, modify at 1. unfold bind at 1, gets at 1. simpl.
  unfold bind at 1.
  match goal with
  | |- context [foreground_loop fuel ?w1] =>
      destruct (foreground_loop_run n fuel w1)
        as (w1' & Hr & Hsame & Hi & Ht & Hm & Hs & Hp & Htr);
      [done | done | exact Hfg | lia |]
  end.
  rewrite Hr. simpl in Hsame, Hi, Hm, Hs, Htr.
  destruct Hsame as (Hs1 & Hs2 & Hs3 & Hs4). simpl in *.
  unfold bind, getpid, modify, gets, tcsetpgrp, tcgetattr_shell_tmodes, ret.
  simpl. rewrite Ht, Hs.
  unfold acquire_events, tcsetpgrp_result, tcgetattr_result, same_process.
  destruct (k_tcsetpgrp K (sys_after_stops n (w_sys w)) STDIN_FILENO
              (k_getpid K (sys_after_stops n (w_sys w)))) as [[e1|] s2]; simpl;
    rewrite ?Ht;
    destruct (k_tcgetattr K s2 STDIN_FILENO) as [e2|tm]; simpl;
    eexists; (split; [reflexivity|]); unfold record_event; simpl;
    rewrite Htr, Hs1, Hself, <- ?app_assoc; simpl; rewrite <- ?app_assoc;
    repeat split; done.
Qed.

End Init.

(** ** The session *)

Section Session.

Context {K : kernel} (tokenize : string -> tokens).
Implicit Types (w : world K).

Lemma loop_view_stop_rounds n : forall s : sys K,
  loop_view (stop_rounds n s) = [].
Proof. induction n as [|n IH]; intros s; simpl; [done|apply IH]. Qed.

Lemma loop_view_acquire n (s : sys K) : loop_view (acquire_events n s) = [].
Proof.
  unfold acquire_events. by rewrite loop_view_app, loop_view_stop_rounds.
Qed.

Lemma stderr_view_stop_rounds n : forall s : sys K,
  stderr_view (stop_rounds n s) = [].
Proof. induction n as [|n IH]; intros s; simpl; [done|apply IH]. Qed.

Lemma stderr_view_acquire n (s : sys K) :
  stderr_view (acquire_events n s) = [].
Proof.
  unfold acquire_events, stderr_view.
  rewrite filter_app. fold (stderr_view (stop_rounds n s)).
  by rewrite stderr_view_stop_rounds.
Qed.

(** [main] from a shell at rest: it ends by [exit] or at end of input,
    with status 0 either way; its last calls are [final_calls]; its
    prompts and reads are those of [prompted_reads]. *)
Lemma main_run n fuel input w :
  at_rest w ->
  init_completes n fuel w ->
  exists w' evs,
    main tokenize fuel input w =
      match first_exit tokenize input with
      | Some _ => Exited 0 w'
      | None => Ret 0 w'
      end /\
    shell_is_interactive w' = k_isatty K (w_sys w) STDIN_FILENO /\
    w_trace w' = w_trace w ++ evs ++ final_calls tokenize input /\
    loop_view (evs ++ final_calls tokenize input) =
      prompted_reads (k_isatty K (w_sys w) STDIN_FILENO) 0
        (reads_of tokenize input).
Proof.
  intros [Hself Hkids] Hinit. unfold main.
  destruct (k_isatty K (w_sys w) STDIN_FILENO) eqn:Htty.
  - destruct (Hinit Htty) as [Hfg Hfuel].
    destruct (init_shell_tty n fuel w Hself Htty Hfg Hfuel)
      as (w0 & Hr & (Hs1 & Hs2 & _) & Hi & _ & _ & _ & Htr).
    rewrite (bind_Ret _ _ _ _ _ Hr).
    unfold bind at 1, gets at 1. rewrite Hi.
    unfold bind at 1, prompt, call, modify.
    destruct (read_loop_run tokenize input 0
                (record_event (Prompt 0) w0))
      as (w' & evs & Hrun & _ & Hi' & Htr' & Hview);
      [split; simpl; congruence |].
    specialize (Hview 0 (fun _ => eq_refl)).
    simpl in Hi', Htr', Hview. rewrite Hi in Hi', Hview.
    exists w', ((Parent, Isatty STDIN_FILENO true)
                :: acquire_events n (w_sys w) ++ [(Parent, Prompt 0)] ++ evs).
    split; [exact Hrun|]. split; [by rewrite Hi'|].
    split.
    + rewrite Htr', Htr, Hs1, Hself. simpl. by rewrite <- !app_assoc.
    + rewrite <- Hview.
      change (loop_view
                (([(Parent, Isatty STDIN_FILENO true)]
                  ++ acquire_events n (w_sys w) ++ [(Parent, Prompt 0)] ++ evs)
                 ++ final_calls tokenize input) =
              [(Parent, Prompt 0)]
              ++ loop_view (evs ++ final_calls tokenize input)).
      rewrite <- !app_assoc, !loop_view_app, loop_view_acquire. done.
  - rewrite (bind_Ret _ _ _ _ _ (init_shell_notty fuel w Htty)).
    unfold bind at 1, gets at 1. simpl.
    unfold bind at 1, ret at 1.
    match goal with
    | |- context [read_loop tokenize input 0 ?w0] =>
        destruct (read_loop_run tokenize input 0 w0)
          as (w' & evs & Hrun & _ & Hi' & Htr' & Hview);
        [by split |]
    end.
    specialize (Hview 0 (fun _ => eq_refl)).
    simpl in Hi', Htr', Hview. rewrite Hself in Htr'.
    exists w', ((Parent, Isatty STDIN_FILENO false) :: evs).
    split; [exact Hrun|]. split; [by rewrite Hi'|].
    split; [by rewrite Htr', <- !app_assoc|].
    by rewrite <- Hview.
Qed.

End Session.

(** ** Claims about spawning *)

Section Spawning.

Context {K : kernel} (tokenize : string -> tokens).
Implicit Types (w : world K).

Lemma read_loop_cons line rest n w :
  read_loop tokenize (line :: rest) n w =
    (line_num <- loop_body tokenize line n ;;
     read_loop tokenize rest line_num) (record_event (Fgets (Some line)) w).
Proof. reflexivity. Qed.

Lemma count_events_app f (tr1 tr2 : list (proc * event)) :
  count_events f (tr1 ++ tr2) = (count_events f tr1 + count_events f tr2)%nat.
Proof. unfold count_events. by rewrite filter_app, length_app. Qed.

Lemma count_child_run f pid path argv failure :
  (forall e, f (Child pid, e) = false) ->
  count_events f (child_run_events pid path argv failure) = 0%nat.
Proof.
  intros Hf. unfold count_events, child_run_events.
  destruct failure; repeat rewrite filter_cons_False by (rewrite Hf; done);
    done.
Qed.

(** C2: on a line whose first token [t0] names no builtin, the loop forks,
    and the code of the child calls [execv] with [t0] itself as the path
    and with the vector made of the tokens in order followed by [NULL].
    Either the image is replaced by that program, or [execv] fails: then
    the child reports the error under the name [t0] with [perror] and
    exits with [EXIT_FAILURE], which is not 0. *)
Theorem spawn_protocol line (t0 : string) (rest : list string) n w :
  at_rest w ->
  tokenize line = t0 :: rest ->
  lookup (Some t0) = -1 ->
  let argv := Some t0 :: (Some <$> rest) ++ [None] in
  (forall wc : world K,
     child_branch (tokenize line) wc =
       match k_execv K (w_sys wc) t0 argv with
       | inr s =>
           Execed t0 argv
             (set_sys s (record_event (Execv (Some t0) argv 0) wc))
       | inl e =>
           Exited EXIT_FAILURE
             (record_event (ExitCall EXIT_FAILURE)
                (record_event (Perror (Some t0) e)
                   (set_errno e
                      (record_event (Execv (Some t0) argv (-1)) wc))))
       end) /\
  EXIT_FAILURE <> 0 /\
  exists w',
    loop_body tokenize line n w = Ret (next_line_num w n) w' /\
    w_trace w' =
      w_trace w ++
      match k_fork K (w_sys w) with
      | (inr p, s) =>
          (Parent, Fork (Z.pos p))
          :: child_run_events (Z.pos p) (Some t0) argv
               (execv_errno s (Some t0) argv)
          ++ [(Parent, Wait (Z.pos p))]
      | (inl _, _) => [(Parent, Fork (-1)); (Parent, Wait (-1))]
      end ++ prompt_events w n.
Proof.
  intros Hrest Htok Hl argv.
  split; [|split; [done|]].
  - intros wc. rewrite child_branch_run, Htok. reflexivity.
  - destruct (loop_body_spawn tokenize line n w Hrest)
      as (w' & Hb & _ & _ & _ & Htr).
    { unfold is_external_line. rewrite Htok. simpl. by rewrite Hl. }
    exists w'. split; [exact Hb|].
    rewrite Htr. unfold spawn_events. rewrite Htok. reflexivity.
Qed.

(** C3 (as amended): for an external command for which [fork] succeeds,
    the round of the loop makes exactly one child and exactly one [wait],
    which returns that child's id after all the child's calls; the shell
    then has no child left, and only then goes on to the rest of the
    input. *)
Theorem external_command_one_child line rest n w (p : positive) (s : sys K) :
  at_rest w ->
  is_external_line tokenize line = true ->
  k_fork K (w_sys w) = (inr p, s) ->
  let t := tokenize line in
  let argv := (Some <$> t) ++ [None] in
  let path := tokens_get_token t 0 in
  let evs :=
    (Parent, Fork (Z.pos p))
    :: child_run_events (Z.pos p) path argv (execv_errno s path argv)
    ++ [(Parent, Wait (Z.pos p))] in
  count_events is_spawn evs = 1%nat /\
  count_events is_wait evs = 1%nat /\
  exists w',
    read_loop tokenize (line :: rest) n w =
      read_loop tokenize rest (next_line_num w n) w' /\
    at_rest w' /\
    w_trace w' =
      w_trace w ++ (Parent, Fgets (Some line)) :: evs ++ prompt_events w n.
Proof.
  intros Hrest Hext Hfork t argv path evs.
  split; [|split].
  - unfold evs.
    change (count_events is_spawn
              ([(Parent, Fork (Z.pos p))]
               ++ child_run_events (Z.pos p) path argv
                    (execv_errno s path argv)
               ++ [(Parent, Wait (Z.pos p))]) = 1%nat).
    by rewrite !count_events_app, count_child_run.
  - unfold evs.
    change (count_events is_wait
              ([(Parent, Fork (Z.pos p))]
               ++ child_run_events (Z.pos p) path argv
                    (execv_errno s path argv)
               ++ [(Parent, Wait (Z.pos p))]) = 1%nat).
    by rewrite !count_events_app, count_child_run.
  - set (w0 := record_event (Fgets (Some line)) w).
    assert (at_rest w0) as Hrest0 by (destruct Hrest; by split).
    destruct (loop_body_spawn tokenize line n w0 Hrest0 Hext)
      as (w' & Hb & Hrest' & _ & _ & Htr).
    exists w'. rewrite read_loop_cons.
    rewrite (bind_Ret _ _ _ _ _ Hb).
    split; [reflexivity|]. split; [done|].
    rewrite Htr. unfold spawn_events, w0, record_event. simpl.
    destruct Hrest as [-> _]. rewrite Hfork, <- app_assoc. reflexivity.
Qed.

(** C10 (as amended): a line with no token is not skipped.  [lookup] gets
    [NULL] and answers -1, so the loop forks.  The code of the child calls
    [execv] with a [NULL] path and the vector [[NULL]]; that fails, the
    child reports the error with [perror] and exits with [EXIT_FAILURE].
    When the [fork] succeeds, these are the calls of the child, the shell
    waits for it, and then goes on to the rest of the input. *)
Theorem empty_line_is_spawned line rest n w (p : positive) (s : sys K) :
  at_rest w ->
  tokenize line = [] ->
  k_fork K (w_sys w) = (inr p, s) ->
  lookup (tokens_get_token (tokenize line) 0) = -1 /\
  (forall wc : world K,
     child_branch (tokenize line) wc =
       Exited EXIT_FAILURE
         (record_event (ExitCall EXIT_FAILURE)
            (record_event (Perror None EFAULT)
               (set_errno EFAULT
                  (record_event (Execv None [None] (-1)) wc))))) /\
  EXIT_FAILURE <> 0 /\
  exists w',
    read_loop tokenize (line :: rest) n w =
      read_loop tokenize rest (next_line_num w n) w' /\
    at_rest w' /\
    w_trace w' =
      w_trace w ++
      [ (Parent, Fgets (Some line));
        (Parent, Fork (Z.pos p));
        (Child (Z.pos p), Fork 0);
        (Child (Z.pos p), Execv None [None] (-1));
        (Child (Z.pos p), Perror None EFAULT);
        (Child (Z.pos p), ExitCall EXIT_FAILURE);
        (Parent, Wait (Z.pos p)) ] ++ prompt_events w n.
Proof.
  intros Hrest Htok Hfork.
  split; [by rewrite Htok|]. split; [|split; [done|]].
  - intros wc. rewrite child_branch_run, Htok. reflexivity.
  - set (w0 := record_event (Fgets (Some line)) w).
    assert (at_rest w0) as Hrest0 by (destruct Hrest; by split).
    destruct (loop_body_spawn tokenize line n w0 Hrest0)
      as (w' & Hb & Hrest' & _ & _ & Htr).
    { unfold is_external_line. by rewrite Htok. }
    exists w'. rewrite read_loop_cons, (bind_Ret _ _ _ _ _ Hb).
    split; [reflexivity|]. split; [done|].
    rewrite Htr. unfold spawn_events, w0, record_event. rewrite Htok. simpl.
    destruct Hrest as [-> _]. rewrite Hfork. by rewrite <- app_assoc.
Qed.

End Spawning.

Lemma spawn_protocol_witness :
  let w := demo_world false 0 false false None in
  at_rest w /\
  words "/bin/ls -l" = ["/bin/ls"; "-l"] /\
  lookup (Some "/bin/ls") = -1 /\
  exists w',
    loop_body words "/bin/ls -l" 0 w = Ret 0 w' /\
    w_trace w' =
      [ (Parent, Fork 100); (Child 100, Fork 0);
        (Child 100,
         Execv (Some "/bin/ls") [Some "/bin/ls"; Some "-l"; None] (-1));
        (Child 100, Perror (Some "/bin/ls") 2);
        (Child 100, ExitCall 1);
        (Parent, Wait 100) ].
Proof.
  intros w.
  assert (at_rest w) as Hrest by (split; reflexivity).
  split; [exact Hrest|]. split; [reflexivity|]. split; [reflexivity|].
  destruct (spawn_protocol words "/bin/ls -l" "/bin/ls" ["-l"] 0 w Hrest
              eq_refl eq_refl) as (_ & _ & w' & H1 & H2).
  exists w'. split; [exact H1|]. rewrite H2. reflexivity.
Defined.

Lemma external_command_one_child_witness :
  let w := demo_world true 0 false false None in
  at_rest w /\
  is_external_line words "/bin/true" = true /\
  k_fork _ (w_sys w) = (inr 100%positive, O) /\
  exists w',
    read_loop words ["/bin/true"] 0 w = read_loop words [] 0 w' /\
    w_trace w' =
      [ (Parent, Fgets (Some "/bin/true"));
        (Parent, Fork 100); (Child 100, Fork 0);
        (Child 100, Execv (Some "/bin/true") [Some "/bin/true"; None] 0);
        (Parent, Wait 100) ].
Proof.
  intros w.
  assert (at_rest w) as Hrest by (split; reflexivity).
  split; [exact Hrest|]. split; [reflexivity|]. split; [reflexivity|].
  destruct (external_command_one_child words "/bin/true" [] 0 w 100%positive
              O Hrest eq_refl eq_refl) as (_ & _ & w' & H1 & _ & H2).
  exists w'. split; [exact H1|]. rewrite H2. reflexivity.
Defined.

(** C3, as stated, fails when [fork] fails: the command [/bin/true] is
    external, yet no child is spawned, and the one [wait] finds no child
    whose completion it could take. *)
Lemma fork_failure_spawns_no_child :
  let w := demo_world false 0 false true None in
  let w' := final_world (loop_body words "/bin/true" 0 w) in
  is_external_line words "/bin/true" = true /\
  w_trace w' = [(Parent, Fork (-1)); (Parent, Wait (-1))] /\
  count_events is_spawn (w_trace w') <> 1%nat.
Proof. vm_compute. repeat split; congruence. Qed.

Lemma empty_line_is_spawned_witness :
  let w := demo_world true 0 false false None in
  at_rest w /\
  words nl = [] /\
  k_fork _ (w_sys w) = (inr 100%positive, O) /\
  exists w',
    read_loop words [nl; "exit"] 0 w = read_loop words ["exit"] 0 w' /\
    w_trace w' =
      [ (Parent, Fgets (Some nl));
        (Parent, Fork 100); (Child 100, Fork 0);
        (Child 100, Execv None [None] (-1));
        (Child 100, Perror None EFAULT);
        (Child 100, ExitCall EXIT_FAILURE);
        (Parent, Wait 100) ].
Proof.
  intros w.
  assert (at_rest w) as Hrest by (split; reflexivity).
  split; [exact Hrest|]. split; [reflexivity|]. split; [reflexivity|].
  destruct (empty_line_is_spawned words nl ["exit"] 0 w 100%positive O Hrest
              eq_refl eq_refl) as (_ & _ & _ & w' & H1 & _ & H2).
  exists w'. split; [exact H1|]. rewrite H2. reflexivity.
Defined.

(** C10, as stated, fails when [fork] fails: on the empty line the loop
    takes the path that spawns, but there is no child, so nothing is
    reported and [wait] has nothing to wait for. *)
Lemma empty_line_fork_failure :
  let w := demo_world false 0 false true None in
  let w' := final_world (loop_body words nl 0 w) in
  words nl = [] /\
  w_trace w' = [(Parent, Fork (-1)); (Parent, Wait (-1))] /\
  stderr_view (w_trace w') = [].
Proof. vm_compute. by repeat split. Qed.

(** ** Claims about the session *)

Section SessionClaims.

Context {K : kernel} (tokenize : string -> tokens).
Implicit Types (w : world K).

Lemma prompted_reads_not_interactive k rs :
  prompted_reads false k rs = (fun r => (Parent, Fgets r)) <$> rs.
Proof.
  revert k. induction rs as [|r rs IH]; intros k; simpl; [done|].
  by rewrite IH.
Qed.

Lemma reads_of_no_exit input :
  first_exit tokenize input = None ->
  reads_of tokenize input = (Some <$> input) ++ [None].
Proof.
  induction input as [|line rest IH]; simpl; [done|].
  destruct (is_exit_line tokenize line); [done|].
  intros H. by rewrite IH.
Qed.

Lemma first_exit_is_exit input line :
  first_exit tokenize input = Some line -> is_exit_line tokenize line = true.
Proof.
  induction input as [|l rest IH]; simpl; [done|].
  destruct (is_exit_line tokenize l) eqn:E; [by intros [= <-]|done].
Qed.

(** Every failed call of a command that the claim names is followed at
    once by its message. *)
Lemma command_failures_reported w t i pe :
  command_events w t !! i = Some pe ->
  is_failed_call pe = true ->
  exists e, command_events w t !! S i = Some (report_of pe e).
Proof.
  unfold command_events, help_events, pwd_events, cd_events, chdir_events,
    spawn_events, child_run_events.
  intros Hi Hf.
  repeat case_match; simpl in Hi;
    repeat (destruct i as [|i]; simpl in Hi;
            [injection Hi as <-; simpl in Hf; try done;
             first [by exists 0 | eexists; reflexivity]|]);
    done.
Qed.

(** A failed [execv] is a call of a child; the other failed calls that are
    answered with a message are calls of the shell. *)
Lemma command_failures_by w t i p e :
  command_events w t !! i = Some (p, e) ->
  is_failed_call (p, e) = true ->
  match e with
  | Execv _ _ _ => exists pid, p = Child pid
  | _ => p = Parent
  end.
Proof.
  unfold command_events, help_events, pwd_events, cd_events, chdir_events,
    spawn_events, child_run_events.
  intros Hi Hf.
  repeat case_match; simpl in Hi;
    repeat (destruct i as [|i]; simpl in Hi;
            [simplify_eq; simpl in Hf; try done; by eexists|]);
    done.
Qed.

(** C5 (as amended): no error ends the loop.  On every line that does not
    name [exit], whatever its calls return, the round comes back and the
    loop goes on with the rest of the input.  Each failed [chdir],
    [getcwd] or [execv] and each missing [HOME] of the command is followed
    at once by its message on standard error, written by the process in
    which the call failed: the shell for a builtin, the child for the
    [execv] of the requested program.  The loop itself ends only by the
    [exit] builtin or at end of input. *)
Theorem parent_loop_survives_errors line rest n w :
  at_rest w ->
  is_exit_line tokenize line = false ->
  let evs :=
    command_events (record_event (Fgets (Some line)) w) (tokenize line) in
  (forall i pe,
     evs !! i = Some pe -> is_failed_call pe = true ->
     exists e, evs !! S i = Some (report_of pe e)) /\
  (forall i p e,
     evs !! i = Some (p, e) -> is_failed_call (p, e) = true ->
     match e with
     | Execv _ _ _ => exists pid, p = Child pid
     | _ => p = Parent
     end) /\
  exists w',
    read_loop tokenize (line :: rest) n w =
      read_loop tokenize rest (next_line_num w n) w' /\
    at_rest w' /\
    w_trace w' =
      w_trace w ++ (Parent, Fgets (Some line)) :: evs ++ prompt_events w n /\
    exists w'' evs',
      read_loop tokenize (line :: rest) n w =
        match first_exit tokenize rest with
        | Some _ => Exited 0 w''
        | None => Ret 0 w''
        end /\
      w_trace w'' = w_trace w' ++ evs' ++ final_calls tokenize rest.
Proof.
  intros Hrest Hx evs. split.
  { intros i pe. apply command_failures_reported. }
  split.
  { intros i p e. apply command_failures_by. }
  set (w0 := record_event (Fgets (Some line)) w).
  assert (at_rest w0) as Hrest0 by (destruct Hrest; by split).
  destruct (loop_body_round tokenize line n w0 Hrest0 Hx)
    as (w' & Hb & Hrest' & _ & Htr).
  exists w'. rewrite read_loop_cons, (bind_Ret _ _ _ _ _ Hb).
  split; [reflexivity|]. split; [done|]. split.
  { rewrite Htr. unfold w0 at 1, record_event at 1. simpl.
    destruct Hrest as [-> _]. by rewrite <- app_assoc. }
  destruct (read_loop_run tokenize rest (next_line_num w0 n) w' Hrest')
    as (w'' & evs' & Hr & _ & _ & Htr' & _).
  by exists w'', evs'.
Qed.

Lemma command_events_named w (t : tokens) :
  command_events w t = named_events w t.
Proof.
  unfold command_events, named_events, lookup, cmd_table, lookup_from,
    entry_matches.
  destruct (tokens_get_token t 0) as [name|]; [|reflexivity]. cbn [fd_cmd].
  destruct (strcmp "exit" name =? 0); [reflexivity|].
  destruct (strcmp "?" name =? 0); [reflexivity|].
  destruct (strcmp "pwd" name =? 0); [reflexivity|].
  destruct (strcmp "cd" name =? 0); reflexivity.
Qed.

Lemma is_exit_line_named line :
  is_exit_line tokenize line = names_exit (tokenize line).
Proof.
  unfold is_exit_line, names_exit, lookup, cmd_table, lookup_from,
    entry_matches.
  destruct (tokens_get_token (tokenize line) 0) as [name|]; [|reflexivity].
  cbn [fd_cmd].
  destruct (strcmp "exit" name =? 0); [reflexivity|].
  destruct (strcmp "?" name =? 0); [reflexivity|].
  destruct (strcmp "pwd" name =? 0); [reflexivity|].
  destruct (strcmp "cd" name =? 0); reflexivity.
Qed.

(** The trace of the loop is the session's calls, line after line. *)
Lemma read_loop_trace input : forall n w,
  at_rest w ->
  w_trace (final_world (read_loop tokenize input n w)) =
    w_trace w ++ session_events tokenize input n w.
Proof.
  induction input as [|line rest IH]; intros n w Hrest.
  - destruct Hrest as [Hself _]. simpl. by rewrite Hself.
  - set (w0 := record_event (Fgets (Some line)) w).
    assert (at_rest w0) as Hrest0 by (destruct Hrest; by split).
    assert (w_trace w0 = w_trace w ++ [(Parent, Fgets (Some line))]) as Htr0.
    { unfold w0, record_event. simpl. by destruct Hrest as [-> _]. }
    rewrite read_loop_cons. fold w0.
    simpl session_events. fold w0.
    rewrite <- command_events_named, <- is_exit_line_named.
    destruct (is_exit_line tokenize line) eqn:Hx.
    + unfold bind. rewrite loop_body_exit by done. simpl.
      unfold command_events.
      unfold is_exit_line in Hx. rewrite Hx.
      destruct Hrest as [Hself _]. rewrite Hself, <- app_assoc. done.
    + destruct (loop_body_round tokenize line n w0 Hrest0 Hx)
        as (w1 & Hb & Hrest1 & _ & Htr1).
      rewrite (bind_Ret _ _ _ _ _ Hb), Hb. simpl final_world.
      rewrite (IH _ w1 Hrest1), Htr1, Htr0, <- !app_assoc. done.
Qed.

(** [main] gets to its loop in the world that [init_shell] and the first
    prompt have left. *)
Lemma main_reaches_loop n fuel input w :
  at_rest w ->
  init_completes n fuel w ->
  let interactive := k_isatty K (w_sys w) STDIN_FILENO in
  let w0 := final_world (init_shell fuel w) in
  let w1 := if interactive then record_event (Prompt 0) w0 else w0 in
  main tokenize fuel input w = read_loop tokenize input 0 w1 /\
  at_rest w1 /\
  w_trace w1 =
    w_trace w ++ (Parent, Isatty STDIN_FILENO interactive) ::
    (if interactive
     then acquire_events n (w_sys w) ++ [(Parent, Prompt 0)] else []).
Proof.
  intros [Hself Hkids] Hinit interactive w0 w1. unfold main.
  unfold interactive, w1, w0.
  destruct (k_isatty K (w_sys w) STDIN_FILENO) eqn:Htty.
  - destruct (Hinit Htty) as [Hfg Hfuel].
    destruct (init_shell_tty n fuel w Hself Htty Hfg Hfuel)
      as (wi & Hr & (Hs1 & Hs2 & _) & Hi & _ & _ & _ & Htr).
    rewrite (bind_Ret _ _ _ _ _ Hr), Hr. simpl final_world.
    unfold bind at 1, gets at 1. rewrite Hi.
    unfold bind at 1, prompt, call, modify.
    split; [reflexivity|]. split; [split; simpl; congruence|].
    unfold record_event. simpl.
    rewrite Htr, Hs1, Hself. simpl. by rewrite <- !app_assoc.
  - rewrite (bind_Ret _ _ _ _ _ (init_shell_notty fuel w Htty)).
    rewrite (init_shell_notty fuel w Htty). simpl final_world.
    unfold bind at 1, gets at 1. simpl.
    unfold bind at 1, ret at 1.
    split; [reflexivity|]. split; [by split|].
    unfold record_event. simpl. by rewrite Hself.
Qed.

(** C6: a prompt is printed before each read exactly when the session is
    interactive.  Among the calls of [main], the prompts and reads are: in
    an interactive session, before the [k]-th read the prompt showing the
    counter [k] (as an [int]) followed by [": "]; otherwise the reads
    alone, with no prompt.  The reads are the lines in order, up to the
    first [exit] line or the end of input, and in either kind of session
    every line read is followed, before the next read, by the calls of
    the command it names: the whole trace of [main] is the calls of
    [init_shell], the first prompt if interactive, and then
    [session_events]. *)
Theorem prompt_before_each_read n fuel input w :
  at_rest w ->
  init_completes n fuel w ->
  let interactive := k_isatty K (w_sys w) STDIN_FILENO in
  let w' := final_world (main tokenize fuel input w) in
  let w0 := final_world (init_shell fuel w) in
  let w1 := if interactive then record_event (Prompt 0) w0 else w0 in
  shell_is_interactive w' = interactive /\
  (exists evs,
     w_trace w' = w_trace w ++ evs /\
     loop_view evs =
       if interactive
       then prompted_reads true 0 (reads_of tokenize input)
       else (fun r => (Parent, Fgets r)) <$> reads_of tokenize input) /\
  (first_exit tokenize input = None ->
     reads_of tokenize input = (Some <$> input) ++ [None]) /\
  (forall k, stdout_bytes (Prompt k) = pretty k +:+ ": ") /\
  (forall k, 0 <= k < 2 ^ 31 -> int_wrap k = k) /\
  shell_is_interactive w1 = interactive /\
  w_trace w1 =
    w_trace w ++ (Parent, Isatty STDIN_FILENO interactive) ::
    (if interactive
     then acquire_events n (w_sys w) ++ [(Parent, Prompt 0)] else []) /\
  w_trace w' = w_trace w1 ++ session_events tokenize input 0 w1.
Proof.
  intros Hrest Hinit interactive w' w0 w1.
  destruct (main_run tokenize n fuel input w Hrest Hinit)
    as (wf & evs & Hm & Hi & Htr & Hview).
  assert (w' = wf) as Hw'.
  { unfold w'. rewrite Hm. by destruct (first_exit tokenize input). }
  destruct (main_reaches_loop n fuel input w Hrest Hinit)
    as (Hmain & Hrest1 & Htr1).
  fold interactive w0 w1 in Hmain, Hrest1, Htr1.
  split; [by rewrite Hw'|]. split.
  { exists (evs ++ final_calls tokenize input). rewrite Hw'.
    split; [exact Htr|].
    rewrite Hview. fold interactive.
    destruct interactive; [done|apply prompted_reads_not_interactive]. }
  split; [apply reads_of_no_exit|]. split; [done|].
  split; [intros k Hk; apply int_wrap_small; lia|].
  split.
  { unfold w1, w0, interactive.
    destruct (k_isatty K (w_sys w) STDIN_FILENO) eqn:Htty.
    - destruct (Hinit Htty) as [Hfg Hfuel].
      destruct Hrest as [Hself _].
      destruct (init_shell_tty n fuel w Hself Htty Hfg Hfuel)
        as (wi & Hr & _ & Hii & _).
      by rewrite Hr.
    - by rewrite (init_shell_notty fuel w Htty). }
  split; [exact Htr1|].
  unfold w'. rewrite Hmain. by apply read_loop_trace.
Qed.

(** C7: the shell ends with status 0, and in two ways only.  When no line
    names [exit], [main] returns 0 once [fgets] meets the end of input,
    and that read is its last call: nothing is printed after it.  When a
    line names [exit], the process exits with status 0 by the call of
    [exit] that follows the read of the first such line, and nothing
    follows that call. *)
Theorem main_ends_with_success n fuel input w :
  at_rest w ->
  init_completes n fuel w ->
  exists w' evs,
    match first_exit tokenize input with
    | None =>
        main tokenize fuel input w = Ret 0 w' /\
        w_trace w' = w_trace w ++ evs ++ [(Parent, Fgets None)]
    | Some line =>
        is_exit_line tokenize line = true /\
        main tokenize fuel input w = Exited 0 w' /\
        w_trace w' =
          w_trace w ++ evs
          ++ [(Parent, Fgets (Some line)); (Parent, ExitCall 0)]
    end.
Proof.
  intros Hrest Hinit.
  destruct (main_run tokenize n fuel input w Hrest Hinit)
    as (w' & evs & Hm & _ & Htr & _).
  exists w', evs. unfold final_calls in Htr.
  destruct (first_exit tokenize input) as [line|] eqn:Hx; [|done].
  split; [by apply (first_exit_is_exit input)|done].
Qed.

End SessionClaims.

Lemma parent_loop_survives_errors_witness :
  let w := demo_world false 0 false false (Some "/home/u") in
  at_rest w /\
  is_exit_line words "cd /nowhere" = false /\
  exists w',
    read_loop words ["cd /nowhere"; "pwd"] 0 w = read_loop words ["pwd"] 0 w' /\
    w_trace w' =
      [ (Parent, Fgets (Some "cd /nowhere"));
        (Parent, Chdir (Some "/nowhere") (-1));
        (Parent, Perror (Some "cd") 2) ].
Proof.
  intros w.
  assert (at_rest w) as Hrest by (split; reflexivity).
  split; [exact Hrest|]. split; [reflexivity|].
  destruct (parent_loop_survives_errors words "cd /nowhere" ["pwd"] 0 w Hrest
              eq_refl) as (_ & _ & w' & H1 & _ & H2 & _).
  exists w'. split; [exact H1|]. rewrite H2. reflexivity.
Defined.

(** C5, as stated, fails in two ways.  When [execv] fails, the message is
    written by the child: the shell itself writes nothing on standard
    error.  When [fork] fails, the failure and that of the [wait] after it
    are reported by nobody.  In both runs the round returns. *)
Lemma exec_failure_not_reported_by_parent :
  let w1 := final_world (loop_body words "/nowhere" 0
                           (demo_world false 0 false false None)) in
  let w2 := final_world (loop_body words "/nowhere" 0
                           (demo_world false 0 false true None)) in
  is_exit_line words "/nowhere" = false /\
  w_trace w1 =
    [ (Parent, Fork 100); (Child 100, Fork 0);
      (Child 100, Execv (Some "/nowhere") [Some "/nowhere"; None] (-1));
      (Child 100, Perror (Some "/nowhere") 2);
      (Child 100, ExitCall 1);
      (Parent, Wait 100) ] /\
  stderr_view (w_trace w1) = [(Child 100, Perror (Some "/nowhere") 2)] /\
  w_trace w2 = [(Parent, Fork (-1)); (Parent, Wait (-1))] /\
  stderr_view (w_trace w2) = [].
Proof. vm_compute. by repeat split. Qed.

Lemma prompt_before_each_read_witness :
  let w := demo_world true 1 false false None in
  at_rest w /\
  init_completes 1 2 w /\
  exists evs,
    w_trace (final_world (main words 2 ["pwd"; "/bin/true"] w)) = evs /\
    loop_view evs =
      [ (Parent, Prompt 0); (Parent, Fgets (Some "pwd"));
        (Parent, Prompt 1); (Parent, Fgets (Some "/bin/true"));
        (Parent, Prompt 2); (Parent, Fgets None) ] /\
    evs =
      [ (Parent, Isatty 0 true);
        (Parent, Tcgetpgrp 0 99); (Parent, Getpgrp 7); (Parent, Kill (-7) 21);
        (Parent, Tcgetpgrp 0 7); (Parent, Getpgrp 7);
        (Parent, Getpid 7); (Parent, Tcsetpgrp 0 7 0);
        (Parent, Tcgetattr 0 0);
        (Parent, Prompt 0);
        (Parent, Fgets (Some "pwd"));
        (Parent, Getcwd (Some "/tmp")); (Parent, Printf ("/tmp" +:+ nl));
        (Parent, Prompt 1);
        (Parent, Fgets (Some "/bin/true"));
        (Parent, Fork 100); (Child 100, Fork 0);
        (Child 100, Execv (Some "/bin/true") [Some "/bin/true"; None] 0);
        (Parent, Wait 100);
        (Parent, Prompt 2);
        (Parent, Fgets None) ].
Proof.
  intros w.
  assert (at_rest w) as Hrest by (split; reflexivity).
  assert (init_completes 1 2 w) as Hinit by (intros _; split; [reflexivity|lia]).
  split; [exact Hrest|]. split; [exact Hinit|].
  destruct (prompt_before_each_read words 1 2 ["pwd"; "/bin/true"] w Hrest
              Hinit) as (_ & (evs & H1 & H2) & _ & _ & _ & _ & _ & H3).
  exists evs. split; [exact H1|]. split; [rewrite H2; reflexivity|].
  etransitivity; [symmetry; exact H1|].
  etransitivity; [exact H3|]. vm_compute. reflexivity.
Defined.

Lemma main_ends_with_success_witness :
  let w := demo_world false 0 false false None in
  at_rest w /\
  init_completes 0 0 w /\
  exists w' evs,
    main words 0 ["pwd"; "exit now"; "pwd"] w = Exited 0 w' /\
    w_trace w' =
      evs ++ [(Parent, Fgets (Some "exit now")); (Parent, ExitCall 0)].
Proof.
  intros w.
  assert (at_rest w) as Hrest by (split; reflexivity).
  assert (init_completes 0 0 w) as Hinit by (intros H; discriminate H).
  split; [exact Hrest|]. split; [exact Hinit|].
  destruct (main_ends_with_success words 0 0 ["pwd"; "exit now"; "pwd"] w
              Hrest Hinit) as (w' & evs & H).
  change (first_exit words ["pwd"; "exit now"; "pwd"]) with (Some "exit now")
    in H.
  destruct H as (_ & H1 & H2).
  exists w', evs. split; [exact H1|exact H2].
Defined.

(** ** Claims about initialisation *)

Section InitClaims.

Context {K : kernel}.
Implicit Types (w : world K).

Lemma foreground_after_rounds n : forall s : sys K,
  foreground_after n s = true ->
  (forall i, (i < n)%nat ->
     k_tcgetpgrp K (sys_after_stops i s) STDIN_FILENO
     <> k_getpgrp K (sys_after_stops i s)) /\
  k_tcgetpgrp K (sys_after_stops n s) STDIN_FILENO
  = k_getpgrp K (sys_after_stops n s).
Proof.
  induction n as [|n IH]; intros s Hfg; simpl in Hfg.
  - split; [intros i Hi; lia|]. by apply Z.eqb_eq.
  - apply andb_true_iff in Hfg as [Hne Hfg].
    apply negb_true_iff, Z.eqb_neq in Hne.
    destruct (IH _ Hfg) as [Hlt Heq]. split; [|exact Heq].
    intros [|i] Hi; [exact Hne|]. apply Hlt. lia.
Qed.

Lemma stderr_view_app (tr1 tr2 : list (proc * event)) :
  stderr_view (tr1 ++ tr2) = stderr_view tr1 ++ stderr_view tr2.
Proof. apply filter_app. Qed.

(** C8: [init_shell] asks whether standard input is a terminal.  If not,
    the session is marked non-interactive and no terminal call is made.
    If so, the terminal's foreground group is compared with the shell's
    group; in each of the [n] rounds in which they differ, [SIGTTIN] is
    sent to the shell's group and the check is made again; once they are
    equal the shell's process id is stored as [shell_pgid] and passed to
    [tcsetpgrp] for the terminal, and the terminal modes that
    [tcgetattr] delivers are stored in [shell_tmodes]. *)
Theorem init_shell_algorithm n fuel w :
  w_self w = Parent ->
  init_completes n fuel w ->
  exists w',
    init_shell fuel w = Ret tt w' /\
    same_process w w' /\
    shell_terminal w' = STDIN_FILENO /\
    shell_is_interactive w' = k_isatty K (w_sys w) STDIN_FILENO /\
    if k_isatty K (w_sys w) STDIN_FILENO then
      let s1 := sys_after_stops n (w_sys w) in
      let s2 := snd (k_tcsetpgrp K s1 STDIN_FILENO (k_getpid K s1)) in
      (forall i, (i < n)%nat ->
         k_tcgetpgrp K (sys_after_stops i (w_sys w)) STDIN_FILENO
         <> k_getpgrp K (sys_after_stops i (w_sys w))) /\
      k_tcgetpgrp K s1 STDIN_FILENO = k_getpgrp K s1 /\
      shell_pgid w' = k_getpid K s1 /\
      shell_tmodes w' =
        match k_tcgetattr K s2 STDIN_FILENO with
        | inr tm => tm
        | inl _ => shell_tmodes w
        end /\
      w_trace w' =
        w_trace w ++ (Parent, Isatty STDIN_FILENO true)
                     :: acquire_events n (w_sys w)
    else
      shell_pgid w' = shell_pgid w /\
      shell_tmodes w' = shell_tmodes w /\
      w_sys w' = w_sys w /\
      w_trace w' = w_trace w ++ [(Parent, Isatty STDIN_FILENO false)].
Proof.
  intros Hself Hinit.
  destruct (k_isatty K (w_sys w) STDIN_FILENO) eqn:Htty.
  - destruct (Hinit Htty) as [Hfg Hfuel].
    destruct (init_shell_tty n fuel w Hself Htty Hfg Hfuel)
      as (w' & Hr & Hsame & Hi & Ht & Hp & Hm & Htr).
    destruct (foreground_after_rounds n _ Hfg) as [Hlt Heq].
    exists w'. simpl. repeat split; try assumption; apply Hsame.
  - exists (set_shell_is_interactive false
              (record_event (Isatty STDIN_FILENO false)
                 (set_shell_terminal STDIN_FILENO w))).
    split; [by apply init_shell_notty|].
    unfold same_process, record_event. simpl. rewrite Hself.
    repeat split; done.
Qed.

End InitClaims.

Lemma init_shell_algorithm_witness :
  let w := demo_world true 2 false false None in
  w_self w = Parent /\
  init_completes 2 3 w /\
  exists w',
    init_shell 3 w = Ret tt w' /\
    shell_pgid w' = 7 /\
    shell_tmodes w' = Termios 1 2 3 4 /\
    w_trace w' =
      [ (Parent, Isatty 0 true);
        (Parent, Tcgetpgrp 0 99); (Parent, Getpgrp 7); (Parent, Kill (-7) 21);
        (Parent, Tcgetpgrp 0 99); (Parent, Getpgrp 7); (Parent, Kill (-7) 21);
        (Parent, Tcgetpgrp 0 7); (Parent, Getpgrp 7);
        (Parent, Getpid 7); (Parent, Tcsetpgrp 0 7 0);
        (Parent, Tcgetattr 0 0) ].
Proof.
  intros w.
  assert (init_completes 2 3 w) as Hinit by (intros _; split; [reflexivity|lia]).
  split; [reflexivity|]. split; [exact Hinit|].
  destruct (init_shell_algorithm 2 3 w eq_refl Hinit)
    as (w' & Hr & _ & _ & _ & H).
  change (k_isatty _ (w_sys w) STDIN_FILENO) with true in H.
  destruct H as (_ & _ & Hp & Hm & Htr).
  exists w'. split; [exact Hr|]. split; [exact Hp|]. split; [exact Hm|].
  rewrite Htr. reflexivity.
Defined.

(** * Further properties *)

(** ** The registry and the dispatch *)

(** [lookup]'s loop on any table, entered at a non-negative index: it
    returns the index of the first entry that matches and passes over
    every entry before it, and returns -1 exactly when no entry matches. *)
Theorem lookup_from_first_match (tbl : list fun_desc) (i : Z)
    (cmd : option string) :
  0 <= i ->
  (forall k : nat,
     (lookup_from tbl i cmd = i + Z.of_nat k /\ (k < length tbl)%nat) <->
     (exists d, tbl !! k = Some d /\ entry_matches d cmd = true /\
        forall (j : nat) d', (j < k)%nat -> tbl !! j = Some d' ->
          entry_matches d' cmd = false)) /\
  (lookup_from tbl i cmd = -1 <->
   forall d, d ∈ tbl -> entry_matches d cmd = false).
Proof.
  revert i. induction tbl as [|d tbl IH]; intros i Hi.
  - split.
    + intros k. simpl. split; [intros [_ H]; lia|intros (d & H & _); done].
    + simpl. split; [intros _ d Hd; by apply elem_of_nil in Hd|done].
  - destruct (IH (i + 1) ltac:(lia)) as [IHk IHn]. simpl.
    destruct (entry_matches d cmd) eqn:Hm; split.
    + intros k. split.
      * intros [Hk _]. assert (k = 0%nat) as -> by lia.
        exists d. repeat split; [done|]. intros j d' Hj. lia.
      * intros (d0 & Hd0 & Hm0 & Hbefore).
        destruct k as [|k]; [simpl; split; lia|].
        specialize (Hbefore 0%nat d ltac:(lia) eq_refl). congruence.
    + split; [lia|]. intros H. specialize (H d ltac:(left)). congruence.
    + intros k. split.
      * intros [Hk Hlen]. destruct k as [|k].
        { destruct (lookup_from_range tbl (i + 1) cmd); lia. }
        destruct (proj1 (IHk k)) as (d0 & Hd0 & Hm0 & Hbefore).
        { split; [lia|simpl in Hlen; lia]. }
        exists d0. repeat split; [done..|].
        intros [|j] d' Hj Hd'; [by injection Hd' as <-|].
        apply (Hbefore j); [lia|done].
      * intros (d0 & Hd0 & Hm0 & Hbefore).
        destruct k as [|k]; [injection Hd0 as ->; congruence|].
        destruct (proj2 (IHk k)) as [Hk Hlen].
        { exists d0. repeat split; [done..|].
          intros j d' Hj Hd'. apply (Hbefore (S j)); [lia|done]. }
        split; [lia|simpl; lia].
    + rewrite IHn. split.
      * intros H d0 Hd0. apply elem_of_cons in Hd0 as [->|Hd0]; [done|auto].
      * intros H d0 Hd0. apply H. by right.
Qed.

Lemma lookup_from_first_match_witness :
  0 <= 5 /\
  lookup_from [Fun_desc Cmd_pwd "a" ""; Fun_desc Cmd_cd "b" "";
               Fun_desc Cmd_help "b" ""] 5 (Some "b") = 6 /\
  lookup_from [Fun_desc Cmd_pwd "a" ""] 5 (Some "b") = -1.
Proof.
  split; [lia|].
  destruct (lookup_from_first_match
              [Fun_desc Cmd_pwd "a" ""; Fun_desc Cmd_cd "b" "";
               Fun_desc Cmd_help "b" ""] 5 (Some "b") ltac:(lia))
    as [Hfirst _].
  destruct (lookup_from_first_match [Fun_desc Cmd_pwd "a" ""] 5 (Some "b")
              ltac:(lia)) as [_ Hnone].
  split.
  - apply (Hfirst 1%nat). exists (Fun_desc Cmd_cd "b" "").
    repeat split. intros [|j] d' Hj Hd'; [by injection Hd' as <-|lia].
  - apply Hnone. intros d Hd.
    apply elem_of_cons in Hd as [->|Hd]; [done|by apply elem_of_nil in Hd].
Defined.

Section Dispatch.

Context {K : kernel}.
Implicit Types (w : world K) (t : tokens).

(** [main] indexes [cmd_table] only inside the table: whenever [lookup]
    answers a non-negative index, that index holds an entry, the entry's
    name is the one that matched the present first token, and the handler
    that runs is that entry's. *)
Theorem dispatch_stays_in_table (cmd : option string) t :
  0 <= lookup cmd ->
  exists d name,
    cmd = Some name /\
    cmd_table !! Z.to_nat (lookup cmd) = Some d /\
    strcmp (fd_cmd d) name = 0 /\
    @call_cmd_table K (lookup cmd) t = run_cmd_fun (fd_fun d) t.
Proof.
  intros Hl.
  destruct (lookup_from_first_match cmd_table 0 cmd ltac:(lia)) as [Hk _].
  destruct (lookup_range cmd) as [Hr|Hr]; [lia|].
  destruct (proj1 (Hk (Z.to_nat (lookup cmd)))) as (d & Hd & Hm & _).
  { split; [rewrite Z2Nat.id by lia; reflexivity|].
    change (length cmd_table) with 4%nat. lia. }
  destruct cmd as [name|]; [|done].
  exists d, name. simpl in Hm. apply Z.eqb_eq in Hm.
  repeat split; [done..|]. unfold call_cmd_table. by rewrite Hd.
Qed.

End Dispatch.

Lemma dispatch_stays_in_table_witness :
  0 <= lookup (Some "cd") /\
  exists d,
    cmd_table !! Z.to_nat (lookup (Some "cd")) = Some d /\
    strcmp (fd_cmd d) "cd" = 0.
Proof.
  split; [vm_compute; congruence|].
  destruct (@dispatch_stays_in_table (demo_kernel false 0 false false)
              (Some "cd") [] ltac:(vm_compute; congruence))
    as (d & name & Hn & Hd & Hs & _).
  injection Hn as <-. by exists d.
Defined.

(** ** More on the handlers *)

Section MoreHandlers.

Context {K : kernel}.
Implicit Types (w : world K) (t : tokens).

(** The loop of [cmd_help] on any table: one [printf] per entry, in the
    order of the table, and nothing else. *)
Lemma help_loop_run (tbl : list fun_desc) : forall w,
  exists w',
    help_loop tbl w = Ret tt w' /\
    same_memory w w' /\
    w_self w' = w_self w /\ w_children w' = w_children w /\
    w_trace w' =
      w_trace w ++
      ((fun d => (w_self w, Printf (fd_cmd d +:+ " - " +:+ fd_doc d +:+ nl)))
         <$> tbl).
Proof.
  induction tbl as [|d tbl IH]; intros w.
  - exists w. simpl. unfold same_memory. by rewrite app_nil_r.
  - destruct (IH (record_event
                    (Printf (fd_cmd d +:+ " - " +:+ fd_doc d +:+ nl)) w))
      as (w' & Hr & Hmem & Hs & Hc & Htr).
    exists w'. simpl. unfold bind, printf, call, modify. rewrite Hr.
    unfold same_memory in *. simpl in *.
    repeat split; try tauto; try done.
    rewrite Htr, <- app_assoc. done.
Qed.

(** [help] prints one line per entry of the table, "name - description",
    in the order of the table, returns 1 and touches nothing else; the
    name on its [i]-th line is the one [lookup] maps to the index [i]. *)
Theorem help_lists_the_registry t w :
  exists w',
    cmd_help t w = Ret 1 w' /\
    same_memory w w' /\
    w_children w' = w_children w /\
    w_trace w' =
      w_trace w ++
      ((fun d => (w_self w, Printf (fd_cmd d +:+ " - " +:+ fd_doc d +:+ nl)))
         <$> cmd_table) /\
    forall (i : nat) d,
      cmd_table !! i = Some d -> lookup (Some (fd_cmd d)) = Z.of_nat i.
Proof.
  destruct (help_loop_run cmd_table w) as (w' & Hr & Hmem & _ & Hc & Htr).
  exists w'. unfold cmd_help, bind. rewrite Hr.
  split; [reflexivity|]. split; [exact Hmem|]. split; [exact Hc|].
  split; [exact Htr|].
  intros i d Hi.
  destruct i as [|[|[|[|i]]]]; simpl in Hi; try done; by injection Hi as <-.
Qed.

(** [pwd] prints the working directory and a newline when [getcwd]
    delivers it, which needs the name and its NUL to fit the 1024 bytes
    of the buffer; otherwise it prints nothing and reports the error with
    [perror].  Either way it returns 1 and the working directory and the
    children are as before. *)
Theorem pwd_prints_working_directory t w :
  exists w',
    cmd_pwd t w = Ret 1 w' /\
    w_cwd w' = w_cwd w /\
    w_children w' = w_children w /\
    w_trace w' =
      w_trace w ++
      match k_getcwd K (w_sys w) (w_cwd w) with
      | Some e =>
          [ (w_self w, Getcwd None);
            (w_self w, Perror (Some "getcwd() error") e) ]
      | None =>
          if (String.length (w_cwd w) <? 1024)%nat
          then [ (w_self w, Getcwd (Some (w_cwd w)));
                 (w_self w, Printf (w_cwd w +:+ nl)) ]
          else [ (w_self w, Getcwd None);
                 (w_self w, Perror (Some "getcwd() error") ERANGE) ]
      end.
Proof.
  unfold cmd_pwd, bind, getcwd, printf, perror, call, modify, ret.
  destruct (k_getcwd K (w_sys w) (w_cwd w)) as [e|]; simpl;
    [|destruct (String.length (w_cwd w) <? 1024)%nat; simpl];
    eexists; (split; [reflexivity|]); unfold record_event; simpl;
    rewrite <- ?app_assoc; done.
Qed.

(** [cd] then [pwd]: when [chdir] to the argument succeeds and leads to
    [d], and [d] can be named within the buffer, the [pwd] that follows
    prints [d]. *)
Theorem cd_then_pwd_prints_target (c a : string) (more : list string) t w
    (d : string) :
  k_chdir K (w_sys w) (w_cwd w) a = inr d ->
  k_getcwd K (w_sys w) d = None ->
  (String.length d < 1024)%nat ->
  exists w1 w2,
    cmd_cd (c :: a :: more) w = Ret 1 w1 /\
    cmd_pwd t w1 = Ret 1 w2 /\
    w_cwd w2 = d /\
    w_trace w2 =
      w_trace w ++
      [ (w_self w, Chdir (Some a) 0);
        (w_self w, Getcwd (Some d));
        (w_self w, Printf (d +:+ nl)) ].
Proof.
  intros Hcd Hget Hlen. apply Nat.ltb_lt in Hlen.
  unfold cmd_cd, cmd_pwd, bind, chdir, getcwd, printf, perror, call, modify,
    ret. simpl. rewrite Hcd. simpl.
  eexists; eexists; (split; [reflexivity|]). simpl. rewrite Hget, Hlen.
  split; [reflexivity|].
  unfold record_event; simpl. rewrite <- ?app_assoc. done.
Qed.

(** The child's branch never comes back to the loop: for every token
    list it ends in [exit(EXIT_FAILURE)] or in the image of the program
    named by the first token, started with the tokens and a final
    [NULL]. *)
Theorem child_never_returns t w :
  match child_branch t w with
  | Exited st _ => st = EXIT_FAILURE
  | Execed p av _ =>
      tokens_get_token t 0 = Some p /\ av = (Some <$> t) ++ [None]
  | Ret _ _ | OutOfFuel _ => False
  end.
Proof.
  rewrite child_branch_run.
  destruct (tokens_get_token t 0) as [p|]; [|done].
  by destruct (k_execv K (w_sys w) p ((Some <$> t) ++ [None])).
Qed.

End MoreHandlers.

Lemma cd_then_pwd_prints_target_witness :
  let w := demo_world false 0 false false None in
  k_chdir _ (w_sys w) (w_cwd w) "/home/u" = inr "/home/u" /\
  k_getcwd _ (w_sys w) "/home/u" = None /\
  (String.length "/home/u" < 1024)%nat /\
  exists w1 w2,
    cmd_cd ["cd"; "/home/u"; "ignored"] w = Ret 1 w1 /\
    cmd_pwd ["pwd"] w1 = Ret 1 w2 /\
    w_cwd w2 = "/home/u".
Proof.
  intros w.
  assert (String.length "/home/u" < 1024)%nat as Hlen by (simpl; lia).
  split; [reflexivity|]. split; [reflexivity|]. split; [exact Hlen|].
  destruct (cd_then_pwd_prints_target "cd" "/home/u" ["ignored"] ["pwd"] w
              "/home/u" eq_refl eq_refl Hlen) as (w1 & w2 & H1 & H2 & H3 & _).
  by exists w1, w2.
Defined.

(** ** More on the argument vector *)

(** Whatever the fresh array of [num_tokens + 1] pointers held, the vector
    handed to [execv] has the same size, holds the tokens in order, and
    its only [NULL] is its last element: [execv] sees every token. *)
Theorem argv_exec_null_only_at_end (t : tokens) (arr : list (option string)) :
  length arr = S (tokens_get_length t) ->
  let argv :=
    <[tokens_get_length t := None]>
      (fill_argv t 0 (tokens_get_length t) arr) in
  length argv = length arr /\
  (forall (i : nat) tok, t !! i = Some tok -> argv !! i = Some (Some tok)) /\
  (forall i : nat, argv !! i = Some None <-> i = tokens_get_length t).
Proof.
  intros Hlen argv. unfold tokens_get_length, tokens in *.
  assert (argv = (Some <$> t) ++ [None]) as Hargv
    by (by apply argv_exec_built).
  split; [|split].
  - unfold argv. by rewrite length_insert, fill_argv_length.
  - intros i tok Hi. rewrite Hargv.
    rewrite lookup_app_l by (rewrite length_fmap; by eapply lookup_lt_Some).
    by rewrite list_lookup_fmap, Hi.
  - intros i. rewrite Hargv. split.
    + intros Hi. destruct (decide (i < length t)%nat) as [Hlt|Hge].
      * rewrite lookup_app_l in Hi by (by rewrite length_fmap).
        rewrite list_lookup_fmap in Hi.
        by destruct (t !! i).
      * apply lookup_lt_Some in Hi.
        rewrite length_app, length_fmap in Hi. simpl in Hi. lia.
    + intros ->. rewrite lookup_app_r by (by rewrite length_fmap).
      by rewrite length_fmap, Nat.sub_diag.
Qed.

Lemma argv_exec_null_only_at_end_witness :
  length [Some "junk"; None; Some "junk"] = S (tokens_get_length ["ls"; "-l"])
  /\
  <[2%nat := None]> (fill_argv ["ls"; "-l"] 0 2 [Some "junk"; None; Some "junk"])
    !! 1%nat = Some (Some "-l").
Proof.
  split; [reflexivity|].
  destruct (argv_exec_null_only_at_end ["ls"; "-l"]
              [Some "junk"; None; Some "junk"] eq_refl) as (_ & Htok & _).
  apply (Htok 1%nat "-l"). reflexivity.
Defined.

(** ** More on the rounds of the loop *)

Section MoreRounds.

Context {K : kernel} (tokenize : string -> tokens).
Implicit Types (w : world K).

Lemma parent_events_app (tr1 tr2 : list (proc * event)) :
  parent_events (tr1 ++ tr2) = parent_events tr1 ++ parent_events tr2.
Proof. apply omap_app. Qed.

Lemma parent_events_cons e (tr : list (proc * event)) :
  parent_events ((Parent, e) :: tr) = e :: parent_events tr.
Proof. reflexivity. Qed.

Lemma parent_events_child_run pid path argv failure :
  parent_events (child_run_events pid path argv failure) = [].
Proof. by destruct failure. Qed.

(** A builtin other than [exit] runs inside the shell: its round makes no
    [fork], [execv] or [wait] and no child makes any call; the round
    returns and the loop goes on with the rest of the input. *)
Theorem builtin_runs_in_the_shell line rest n w :
  at_rest w ->
  is_exit_line tokenize line = false ->
  is_external_line tokenize line = false ->
  let evs :=
    command_events (record_event (Fgets (Some line)) w) (tokenize line) in
  Forall (fun pe => is_process_call pe = false) evs /\
  exists w',
    read_loop tokenize (line :: rest) n w =
      read_loop tokenize rest (next_line_num w n) w' /\
    at_rest w' /\
    w_trace w' =
      w_trace w ++ (Parent, Fgets (Some line)) :: evs ++ prompt_events w n.
Proof.
  intros Hrest Hx Hext evs. split.
  - unfold evs, command_events.
    apply Z.eqb_neq in Hx. apply Z.eqb_neq in Hext.
    destruct (lookup_range (tokens_get_token (tokenize line) 0)) as [Hl|Hl];
      [done|].
    assert (lookup (tokens_get_token (tokenize line) 0) = 1 \/
            lookup (tokens_get_token (tokenize line) 0) = 2 \/
            lookup (tokens_get_token (tokenize line) 0) = 3)
      as [->|[->| ->]] by lia; simpl.
    + repeat constructor.
    + unfold pwd_events. repeat case_match; repeat constructor.
    + unfold cd_events, chdir_events. repeat case_match; repeat constructor.
  - set (w0 := record_event (Fgets (Some line)) w).
    assert (at_rest w0) as Hrest0 by (destruct Hrest; by split).
    destruct (loop_body_round tokenize line n w0 Hrest0 Hx)
      as (w' & Hb & Hrest' & _ & Htr).
    exists w'. rewrite read_loop_cons, (bind_Ret _ _ _ _ _ Hb).
    split; [reflexivity|]. split; [done|].
    rewrite Htr. unfold w0 at 1, record_event at 1. simpl.
    destruct Hrest as [-> _]. by rewrite <- app_assoc.
Qed.

(** When [fork] fails on an external command nothing is reported: the
    shell calls [wait], which fails at once, prints the prompt if the
    session is interactive and goes on with the rest of the input. *)
Theorem fork_failure_is_silent line rest n w (e : Z) (s : sys K) :
  at_rest w ->
  is_external_line tokenize line = true ->
  k_fork K (w_sys w) = (inl e, s) ->
  exists w',
    read_loop tokenize (line :: rest) n w =
      read_loop tokenize rest (next_line_num w n) w' /\
    at_rest w' /\
    w_trace w' =
      w_trace w ++
      [ (Parent, Fgets (Some line));
        (Parent, Fork (-1)); (Parent, Wait (-1)) ] ++ prompt_events w n.
Proof.
  intros Hrest Hext Hfork.
  set (w0 := record_event (Fgets (Some line)) w).
  assert (at_rest w0) as Hrest0 by (destruct Hrest; by split).
  destruct (loop_body_spawn tokenize line n w0 Hrest0 Hext)
    as (w' & Hb & Hrest' & _ & _ & Htr).
  exists w'. rewrite read_loop_cons, (bind_Ret _ _ _ _ _ Hb).
  split; [reflexivity|]. split; [done|].
  rewrite Htr. unfold spawn_events, w0, record_event. simpl.
  destruct Hrest as [-> _]. rewrite Hfork. by rewrite <- app_assoc.
Qed.

(** An external command cannot reach the shell's memory, and the shell
    does not look at how it fared: after the round the working directory,
    the environment and the session globals are as before, and the
    shell's own calls are [fork], [wait] with the results of [fork] alone,
    and the prompt, whether [execv] replaced the image or failed. *)
Theorem external_command_leaves_shell_alone line n w :
  at_rest w ->
  is_external_line tokenize line = true ->
  exists w',
    loop_body tokenize line n w = Ret (next_line_num w n) w' /\
    same_memory w w' /\
    parent_events (w_trace w') =
      parent_events (w_trace w) ++
      match fst (k_fork K (w_sys w)) with
      | inr p => [Fork (Z.pos p); Wait (Z.pos p)]
      | inl _ => [Fork (-1); Wait (-1)]
      end ++ parent_events (prompt_events w n).
Proof.
  intros Hrest Hext.
  destruct (loop_body_spawn tokenize line n w Hrest Hext)
    as (w' & Hb & _ & _ & _ & Htr).
  exists w'. split; [exact Hb|]. split.
  - destruct Hrest as [Hself Hkids]. apply Z.eqb_eq in Hext.
    assert (same_memory w (final_world (loop_body tokenize line n w))) as Hm.
    { unfold loop_body. rewrite Hext. simpl.
      unfold bind at 1. unfold fork.
      destruct (k_fork K (w_sys w)) as [[e|p] s]; simpl.
      - unfold parent_branch, bind, wait, gets, prompt, call, modify, ret.
        simpl. rewrite Hkids. simpl.
        by destruct (shell_is_interactive w).
      - set (sc := w_sys (final_world _)). set (tc := w_trace (final_world _)).
        clearbody sc tc.
        unfold bind, gets, prompt, call, modify, ret. simpl.
        by destruct (shell_is_interactive w). }
    by rewrite Hb in Hm.
  - rewrite Htr, !parent_events_app. f_equal. f_equal.
    unfold spawn_events.
    destruct (k_fork K (w_sys w)) as [[e|p] s]; [done|]. cbn [fst].
    by rewrite parent_events_cons, parent_events_app,
      parent_events_child_run.
Qed.

End MoreRounds.

Lemma builtin_runs_in_the_shell_witness :
  let w := demo_world false 0 false false None in
  at_rest w /\
  is_exit_line words "pwd" = false /\
  is_external_line words "pwd" = false /\
  exists w',
    read_loop words ["pwd"; "?"] 0 w = read_loop words ["?"] 0 w' /\
    w_trace w' =
      [ (Parent, Fgets (Some "pwd"));
        (Parent, Getcwd (Some "/tmp")); (Parent, Printf ("/tmp" +:+ nl)) ].
Proof.
  intros w.
  assert (at_rest w) as Hrest by (split; reflexivity).
  split; [exact Hrest|]. split; [reflexivity|]. split; [reflexivity|].
  destruct (builtin_runs_in_the_shell words "pwd" ["?"] 0 w Hrest eq_refl
              eq_refl) as (_ & w' & H1 & _ & H2).
  exists w'. split; [exact H1|]. rewrite H2. reflexivity.
Defined.

Lemma fork_failure_is_silent_witness :
  let w := demo_world false 0 false true None in
  at_rest w /\
  is_external_line words "/bin/true" = true /\
  k_fork _ (w_sys w) = (inl 11, O) /\
  exists w',
    read_loop words ["/bin/true"; "pwd"] 0 w = read_loop words ["pwd"] 0 w' /\
    w_trace w' =
      [ (Parent, Fgets (Some "/bin/true"));
        (Parent, Fork (-1)); (Parent, Wait (-1)) ].
Proof.
  intros w.
  assert (at_rest w) as Hrest by (split; reflexivity).
  split; [exact Hrest|]. split; [reflexivity|]. split; [reflexivity|].
  destruct (fork_failure_is_silent words "/bin/true" ["pwd"] 0 w 11 O Hrest
              eq_refl eq_refl) as (w' & H1 & _ & H2).
  exists w'. split; [exact H1|]. rewrite H2. reflexivity.
Defined.

Lemma external_command_leaves_shell_alone_witness :
  let w := demo_world false 0 false false (Some "/home/u") in
  at_rest w /\
  is_external_line words "/bin/nothing here" = true /\
  exists w',
    loop_body words "/bin/nothing here" 0 w = Ret 0 w' /\
    w_cwd w' = "/tmp" /\
    parent_events (w_trace w') = [Fork 100; Wait 100].
Proof.
  intros w.
  assert (at_rest w) as Hrest by (split; reflexivity).
  split; [exact Hrest|]. split; [reflexivity|].
  destruct (external_command_leaves_shell_alone words "/bin/nothing here" 0 w
              Hrest eq_refl) as (w' & H1 & (Hcwd & _) & H2).
  exists w'. split; [exact H1|]. split; [exact Hcwd|]. rewrite H2. reflexivity.
Defined.

(** ** More on the session *)

Section MoreSession.

Context {K : kernel} (tokenize : string -> tokens).
Implicit Types (w : world K).

Lemma read_loop_at_rest input : forall n w,
  at_rest w -> at_rest (final_world (read_loop tokenize input n w)).
Proof.
  induction input as [|line rest IH]; intros n w Hrest.
  - destruct Hrest. by split.
  - set (w0 := record_event (Fgets (Some line)) w).
    assert (at_rest w0) as Hrest0 by (destruct Hrest; by split).
    rewrite read_loop_cons. fold w0.
    destruct (is_exit_line tokenize line) eqn:Hx.
    + unfold bind. rewrite loop_body_exit by done. simpl.
      destruct Hrest0. by split.
    + destruct (loop_body_round tokenize line n w0 Hrest0 Hx)
        as (w1 & Hb & Hrest1 & _).
      rewrite (bind_Ret _ _ _ _ _ Hb). by apply IH.
Qed.

(** When the session is over, by [exit] or at end of input, the shell has
    no child left that it did not wait for. *)
Theorem session_leaves_no_child n fuel input w :
  at_rest w ->
  init_completes n fuel w ->
  at_rest (final_world (main tokenize fuel input w)).
Proof.
  intros [Hself Hkids] Hinit. unfold main.
  destruct (k_isatty K (w_sys w) STDIN_FILENO) eqn:Htty.
  - destruct (Hinit Htty) as [Hfg Hfuel].
    destruct (init_shell_tty n fuel w Hself Htty Hfg Hfuel)
      as (w0 & Hr & (Hs1 & Hs2 & _) & Hi & _).
    rewrite (bind_Ret _ _ _ _ _ Hr).
    unfold bind at 1, gets at 1. rewrite Hi.
    unfold bind at 1, prompt, call, modify.
    apply read_loop_at_rest. split; simpl; congruence.
  - rewrite (bind_Ret _ _ _ _ _ (init_shell_notty fuel w Htty)).
    unfold bind at 1, gets at 1. simpl.
    unfold bind at 1, ret at 1.
    apply read_loop_at_rest. by split.
Qed.

Lemma read_loop_after_exit pre x post : forall n w,
  is_exit_line tokenize x = true ->
  read_loop tokenize (pre ++ x :: post) n w =
  read_loop tokenize (pre ++ [x]) n w.
Proof.
  induction pre as [|line pre IH]; intros n w Hx; simpl app.
  - rewrite !read_loop_cons. unfold bind. by rewrite loop_body_exit.
  - rewrite !read_loop_cons. unfold bind.
    destruct (loop_body tokenize line n _); [|done..]. by apply IH.
Qed.

(** What follows a line that names [exit] is never read: the session is
    the same, call for call, as if the input ended with that line. *)
Theorem input_after_exit_is_not_read fuel pre x post w :
  is_exit_line tokenize x = true ->
  main tokenize fuel (pre ++ x :: post) w = main tokenize fuel (pre ++ [x]) w.
Proof.
  intros Hx. unfold main. unfold bind at 1 4.
  destruct (init_shell fuel w) as [[] w0|st w0|p av w0|w0]; [|done..].
  unfold bind at 1 3, gets.
  destruct (shell_is_interactive w0); unfold bind, prompt, call, modify, ret;
    by apply read_loop_after_exit.
Qed.

(** The loop on an input in two parts, the first without an [exit] line:
    it does on the first part what it does on that part alone, up to the
    read that would meet the end of input, and goes on from there with
    the second part. *)
Theorem read_loop_splits a b : forall n w,
  at_rest w ->
  first_exit tokenize a = None ->
  exists n1 w1,
    at_rest w1 /\
    read_loop tokenize a n w = Ret 0 (record_event (Fgets None) w1) /\
    read_loop tokenize (a ++ b) n w = read_loop tokenize b n1 w1.
Proof.
  induction a as [|line a IH]; intros n w Hrest Hnone.
  - by exists n, w.
  - simpl in Hnone.
    destruct (is_exit_line tokenize line) eqn:Hx; [done|].
    set (w0 := record_event (Fgets (Some line)) w).
    assert (at_rest w0) as Hrest0 by (destruct Hrest; by split).
    destruct (loop_body_round tokenize line n w0 Hrest0 Hx)
      as (w' & Hb & Hrest' & _).
    destruct (IH (next_line_num w0 n) w' Hrest' Hnone)
      as (n1 & w1 & Hrest1 & Ha & Hab).
    exists n1, w1. simpl app.
    rewrite !read_loop_cons, !(bind_Ret _ _ _ _ _ Hb). done.
Qed.

Lemma foreground_loop_stuck fuel : forall w,
  w_self w = Parent ->
  shell_terminal w = STDIN_FILENO ->
  background_for fuel (w_sys w) = true ->
  exists w',
    foreground_loop fuel w = OutOfFuel w' /\
    w_trace w' = w_trace w ++ stop_rounds fuel (w_sys w).
Proof.
  induction fuel as [|fuel IH]; intros w Hself Hterm Hbg.
  - exists w. simpl. by rewrite app_nil_r.
  - simpl in Hbg. apply andb_true_iff in Hbg as [Hne Hbg].
    simpl foreground_loop.
    unfold bind, gets, tcgetpgrp, getpgrp, modify, kill; simpl.
    rewrite Hterm, Hne. simpl.
    match goal with
    | |- context [foreground_loop fuel ?w1] =>
        destruct (IH w1) as (w' & Hr & Htr); [done | done | exact Hbg |]
    end.
    exists w'. rewrite Hr. split; [done|].
    rewrite Htr. simpl. rewrite Hself, <- !app_assoc. done.
Qed.

(** As long as the terminal's foreground group is not the shell's,
    [main] does not get past the loop of [init_shell]: all it does is
    stop its group round after round; it takes no control of the
    terminal, prints no prompt and reads no line. *)
Theorem main_waits_in_background fuel input w :
  w_self w = Parent ->
  k_isatty K (w_sys w) STDIN_FILENO = true ->
  background_for fuel (w_sys w) = true ->
  exists w',
    main tokenize fuel input w = OutOfFuel w' /\
    w_trace w' =
      w_trace w ++ (Parent, Isatty STDIN_FILENO true)
                   :: stop_rounds fuel (w_sys w).
Proof.
  intros Hself Htty Hbg. unfold main, init_shell.
  unfold bind at 1 2, modify at 1. unfold bind at 1, gets at 1.
  unfold bind at 1, isatty at 1. simpl. rewrite Htty.
  unfold bind at 1, modify at 1. unfold bind at 1, gets at 1. simpl.
  unfold bind at 1.
  match goal with
  | |- context [foreground_loop fuel ?w1] =>
      destruct (foreground_loop_stuck fuel w1) as (w' & Hr & Htr);
      [done | done | exact Hbg |]
  end.
  exists w'. rewrite Hr. split; [done|].
  rewrite Htr. simpl. rewrite Hself, <- app_assoc. done.
Qed.

End MoreSession.

Lemma session_leaves_no_child_witness :
  let w := demo_world true 1 false false None in
  at_rest w /\
  init_completes 1 2 w /\
  w_children (final_world (main words 2 ["/bin/true"; "/nowhere"; nl] w)) = [].
Proof.
  intros w.
  assert (at_rest w) as Hrest by (split; reflexivity).
  assert (init_completes 1 2 w) as Hinit by (intros _; split; [reflexivity|lia]).
  split; [exact Hrest|]. split; [exact Hinit|].
  apply (session_leaves_no_child words 1 2 ["/bin/true"; "/nowhere"; nl] w
           Hrest Hinit).
Defined.

Lemma input_after_exit_is_not_read_witness :
  is_exit_line words "exit 3" = true /\
  main words 1 (["pwd"] ++ "exit 3" :: ["cd /"; "pwd"])
    (demo_world false 0 false false None) =
  main words 1 (["pwd"] ++ ["exit 3"]) (demo_world false 0 false false None).
Proof.
  split; [reflexivity|].
  apply (input_after_exit_is_not_read words 1 ["pwd"] "exit 3" ["cd /"; "pwd"]
           (demo_world false 0 false false None)).
  reflexivity.
Defined.

Lemma read_loop_splits_witness :
  let w := demo_world false 0 false false None in
  at_rest w /\
  first_exit words ["cd /"; "pwd"] = None /\
  exists n1 w1,
    read_loop words (["cd /"; "pwd"] ++ ["exit"]) 0 w =
    read_loop words ["exit"] n1 w1.
Proof.
  intros w.
  assert (at_rest w) as Hrest by (split; reflexivity).
  split; [exact Hrest|]. split; [reflexivity|].
  destruct (read_loop_splits words ["cd /"; "pwd"] ["exit"] 0 w Hrest eq_refl)
    as (n1 & w1 & _ & _ & H).
  by exists n1, w1.
Defined.

Lemma main_waits_in_background_witness :
  let w := demo_world true 5 false false None in
  w_self w = Parent /\
  k_isatty _ (w_sys w) STDIN_FILENO = true /\
  background_for 2 (w_sys w) = true /\
  exists w',
    main words 2 ["pwd"] w = OutOfFuel w' /\
    w_trace w' =
      [ (Parent, Isatty 0 true);
        (Parent, Tcgetpgrp 0 99); (Parent, Getpgrp 7); (Parent, Kill (-7) 21);
        (Parent, Tcgetpgrp 0 99); (Parent, Getpgrp 7); (Parent, Kill (-7) 21) ].
Proof.
  intros w.
  split; [reflexivity|]. split; [reflexivity|]. split; [reflexivity|].
  destruct (main_waits_in_background words 2 ["pwd"] w eq_refl eq_refl
              eq_refl) as (w' & H1 & H2).
  exists w'. split; [exact H1|]. rewrite H2. reflexivity.
Defined.

(** ** What [cd] leaves alone *)

Section CdFrame.

Context {K : kernel}.
Implicit Types (w : world K) (t : tokens).

(** [cd] returns 1 for every token list, and apart from the working
    directory, [errno] and the trace it changes nothing: no environment
    variable is set (neither [HOME] nor a record of the directory), the
    session globals and the children are as before. *)
Theorem cd_touches_only_the_directory t w :
  exists w',
    cmd_cd t w = Ret 1 w' /\
    w_environ w' = w_environ w /\
    w_children w' = w_children w /\
    w_sys w' = w_sys w /\
    shell_is_interactive w' = shell_is_interactive w /\
    shell_terminal w' = shell_terminal w /\
    shell_tmodes w' = shell_tmodes w /\
    shell_pgid w' = shell_pgid w.
Proof.
  unfold cmd_cd, bind, getenv, chdir, eprintf, perror, call, modify, ret.
  destruct (tokens_get_length t =? 1)%nat; simpl.
  - destruct (w_environ w !! "HOME") as [h|]; simpl;
      [destruct (k_chdir K (w_sys w) (w_cwd w) h); simpl|];
      eexists; (split; [reflexivity|]); done.
  - destruct (tokens_get_token t 1) as [a|]; simpl;
      [destruct (k_chdir K (w_sys w) (w_cwd w) a); simpl|];
      eexists; (split; [reflexivity|]); done.
Qed.

End CdFrame.

(** ** Failures during initialisation *)

Section InitFailures.

Context {K : kernel}.
Implicit Types (w : world K).

Lemma stderr_view_record e w :
  is_stderr (w_self w, e) = false ->
  stderr_view (w_trace (record_event e w)) = stderr_view (w_trace w).
Proof.
  intros He. unfold record_event. simpl.
  rewrite stderr_view_app. unfold stderr_view at 2.
  rewrite filter_cons_False by (rewrite He; done).
  by rewrite filter_nil, app_nil_r.
Qed.

(** The loop of [init_shell] writes nothing on standard error, however
    long it runs and however it ends. *)
Lemma foreground_loop_silent fuel : forall w,
  stderr_view (w_trace (final_world (foreground_loop fuel w))) =
  stderr_view (w_trace w).
Proof.
  induction fuel as [|fuel IH]; intros w; [done|].
  simpl foreground_loop.
  unfold bind, gets, tcgetpgrp, getpgrp, modify, kill; simpl.
  destruct (negb (_ =? _)); simpl.
  - match goal with
    | |- context [foreground_loop fuel ?w1] =>
        destruct (foreground_loop fuel w1) eqn:Hl;
        specialize (IH w1); rewrite Hl in IH; simpl in IH |- *; rewrite IH
    end;
      unfold record_event; simpl; rewrite !stderr_view_app; simpl;
      by rewrite !app_nil_r.
  - unfold record_event; simpl. rewrite !stderr_view_app. simpl.
    by rewrite !app_nil_r.
Qed.

(** So does the whole of [init_shell], whatever its calls return. *)
Lemma init_shell_silent fuel w :
  stderr_view (w_trace (final_world (init_shell fuel w))) =
  stderr_view (w_trace w).
Proof.
  unfold init_shell.
  unfold bind at 1, modify at 1. unfold bind at 1, gets at 1.
  unfold bind at 1, isatty at 1. simpl.
  destruct (k_isatty K (w_sys w) STDIN_FILENO); simpl.
  - unfold bind at 1, modify at 1. unfold bind at 1, gets at 1. simpl.
    unfold bind at 1.
    match goal with
    | |- context [foreground_loop fuel ?w1] =>
        pose proof (foreground_loop_silent fuel w1) as Hl;
        destruct (foreground_loop fuel w1) as [[] w2|st w2|p av w2|w2];
        simpl in Hl |- *
    end;
      try (rewrite Hl; unfold record_event; simpl;
           rewrite stderr_view_app; simpl; by rewrite app_nil_r).
    unfold bind, getpid, modify, gets, tcsetpgrp, tcgetattr_shell_tmodes, ret.
    simpl.
    destruct (k_tcsetpgrp K (w_sys w2) (shell_terminal w2)
                (k_getpid K (w_sys w2))) as [[e1|] s2]; simpl;
      destruct (k_tcgetattr K s2 (shell_terminal w2)) as [e2|tm]; simpl;
      unfold record_event; simpl; rewrite !stderr_view_app; simpl;
      rewrite !app_nil_r, Hl; unfold record_event; simpl;
      rewrite stderr_view_app; simpl; by rewrite app_nil_r.
  - unfold bind, modify, gets, ret, record_event. simpl.
    rewrite stderr_view_app. simpl. by rewrite app_nil_r.
Qed.

(** While the terminal's foreground group is not the shell's, [init_shell]
    stays in its loop. *)
Lemma init_shell_stuck fuel w :
  w_self w = Parent ->
  k_isatty K (w_sys w) STDIN_FILENO = true ->
  background_for fuel (w_sys w) = true ->
  exists w',
    init_shell fuel w = OutOfFuel w' /\
    w_trace w' =
      w_trace w ++ (Parent, Isatty STDIN_FILENO true)
                   :: stop_rounds fuel (w_sys w).
Proof.
  intros Hself Htty Hbg. unfold init_shell.
  unfold bind at 1, modify at 1. unfold bind at 1, gets at 1.
  unfold bind at 1, isatty at 1. simpl. rewrite Htty.
  unfold bind at 1, modify at 1. unfold bind at 1, gets at 1. simpl.
  unfold bind at 1.
  match goal with
  | |- context [foreground_loop fuel ?w1] =>
      destruct (foreground_loop_stuck fuel w1) as (w' & Hr & Htr);
      [done | done | exact Hbg |]
  end.
  exists w'. rewrite Hr. split; [done|].
  rewrite Htr. simpl. rewrite Hself, <- app_assoc. done.
Qed.

(** A [tcgetpgrp] that fails returns -1, which is no process group. *)
Lemma failing_tcgetpgrp_background fuel :
  (forall s, k_tcgetpgrp K s STDIN_FILENO = -1) ->
  (forall s, 0 <= k_getpgrp K s) ->
  forall s : sys K, background_for fuel s = true.
Proof.
  intros Hfail Hpg. induction fuel as [|fuel IH]; intros s; simpl; [done|].
  rewrite IH, andb_true_r. apply negb_true_iff, Z.eqb_neq.
  rewrite Hfail. specialize (Hpg s). lia.
Qed.

(** C9 (as amended): no failure of a terminal-control operation during
    initialisation is surfaced: whatever [tcgetpgrp], [tcsetpgrp] and
    [tcgetattr] return and however [init_shell] ends, it writes nothing on
    standard error.  A failure of [tcsetpgrp] or of [tcgetattr] is ignored
    and does not abort startup: once the terminal is the shell's,
    [init_shell] returns with the session marked interactive, their
    results being the last two calls recorded.  A [tcgetpgrp] that fails
    never equals the shell's group, so [init_shell] does not return: it
    sends [SIGTTIN] and checks again, for as long as the fuel lasts. *)
Theorem init_shell_ignores_failures n fuel w :
  w_self w = Parent ->
  k_isatty K (w_sys w) STDIN_FILENO = true ->
  stderr_view (w_trace (final_world (init_shell fuel w))) =
    stderr_view (w_trace w) /\
  (foreground_after n (w_sys w) = true ->
   (n < fuel)%nat ->
   let s1 := sys_after_stops n (w_sys w) in
   let pid := k_getpid K s1 in
   let s2 := snd (k_tcsetpgrp K s1 STDIN_FILENO pid) in
   exists w' evs,
     init_shell fuel w = Ret tt w' /\
     shell_is_interactive w' = true /\
     w_trace w' =
       w_trace w ++ evs ++
       [ (Parent, Tcsetpgrp STDIN_FILENO pid
            (tcsetpgrp_result s1 STDIN_FILENO pid));
         (Parent, Tcgetattr STDIN_FILENO (tcgetattr_result s2 STDIN_FILENO)) ]
     /\
     stderr_view (w_trace w') = stderr_view (w_trace w)) /\
  ((forall s, k_tcgetpgrp K s STDIN_FILENO = -1) ->
   (forall s, 0 <= k_getpgrp K s) ->
   exists w',
     init_shell fuel w = OutOfFuel w' /\
     w_trace w' =
       w_trace w ++ (Parent, Isatty STDIN_FILENO true)
                    :: stop_rounds fuel (w_sys w)).
Proof.
  intros Hself Htty. split; [apply init_shell_silent|]. split.
  - intros Hfg Hfuel s1 pid s2.
    destruct (init_shell_tty n fuel w Hself Htty Hfg Hfuel)
      as (w' & Hr & _ & Hi & _ & _ & _ & Htr).
    exists w', ((Parent, Isatty STDIN_FILENO true) :: stop_rounds n (w_sys w)
                ++ [ (Parent, Tcgetpgrp STDIN_FILENO
                        (k_tcgetpgrp K s1 STDIN_FILENO));
                     (Parent, Getpgrp (k_getpgrp K s1));
                     (Parent, Getpid pid) ]).
    split; [exact Hr|]. split; [exact Hi|]. split.
    + rewrite Htr. unfold acquire_events. fold s1 pid s2. simpl.
      by rewrite <- !app_assoc.
    + pose proof (init_shell_silent fuel w) as Hs. by rewrite Hr in Hs.
  - intros Hfail Hpg. apply init_shell_stuck; [done..|].
    by apply failing_tcgetpgrp_background.
Qed.

End InitFailures.

Lemma init_shell_ignores_failures_witness :
  let w := demo_world true 1 true false None in
  let u := start_world no_terminal_kernel O "/" ∅ in
  w_self w = Parent /\
  k_isatty _ (w_sys w) STDIN_FILENO = true /\
  w_self u = Parent /\
  k_isatty _ (w_sys u) STDIN_FILENO = true /\
  (exists w' evs,
     init_shell 2 w = Ret tt w' /\
     shell_is_interactive w' = true /\
     w_trace w' =
       evs ++ [(Parent, Tcsetpgrp 0 7 (-1)); (Parent, Tcgetattr 0 (-1))] /\
     stderr_view (w_trace w') = []) /\
  (exists u',
     init_shell 2 u = OutOfFuel u' /\
     w_trace u' =
       [ (Parent, Isatty 0 true);
         (Parent, Tcgetpgrp 0 (-1)); (Parent, Getpgrp 7);
         (Parent, Kill (-7) 21);
         (Parent, Tcgetpgrp 0 (-1)); (Parent, Getpgrp 7);
         (Parent, Kill (-7) 21) ]).
Proof.
  intros w u.
  split; [reflexivity|]. split; [reflexivity|].
  split; [reflexivity|]. split; [reflexivity|].
  split.
  - destruct (init_shell_ignores_failures 1 2 w eq_refl eq_refl)
      as (_ & Hret & _).
    destruct (Hret eq_refl ltac:(lia)) as (w' & evs & Hr & Hi & Htr & Herr).
    exists w', evs. split; [exact Hr|]. split; [exact Hi|].
    split; [exact Htr|exact Herr].
  - destruct (init_shell_ignores_failures 0 2 u eq_refl eq_refl)
      as (_ & _ & Hstuck).
    destruct Hstuck as (u' & Hr & Htr);
      [intros s; reflexivity | intros s; simpl; lia |].
    exists u'. split; [exact Hr|]. rewrite Htr. reflexivity.
Defined.

(** C9, as stated, fails in two ways.  On a terminal where [tcsetpgrp] and
    [tcgetattr] both fail, [init_shell] records the two failures and
    writes nothing on standard error.  With no controlling terminal, where
    [tcgetpgrp] fails, [init_shell] writes nothing either and startup does
    not go on: for every fuel it is still in its loop. *)
Lemma init_failure_not_reported :
  let w := demo_world true 0 true false None in
  let w' := final_world (init_shell 1 w) in
  let u := start_world no_terminal_kernel O "/" ∅ in
  (w_trace w' =
     [ (Parent, Isatty 0 true);
       (Parent, Tcgetpgrp 0 7); (Parent, Getpgrp 7); (Parent, Getpid 7);
       (Parent, Tcsetpgrp 0 7 (-1)); (Parent, Tcgetattr 0 (-1)) ] /\
   stderr_view (w_trace w') = []) /\
  forall fuel,
    exists u',
      init_shell fuel u = OutOfFuel u' /\
      w_trace u' =
        (Parent, Isatty 0 true) :: stop_rounds fuel (w_sys u) /\
      stderr_view (w_trace u') = [].
Proof.
  intros w w' u. split; [vm_compute; by split|].
  intros fuel.
  destruct (init_shell_stuck fuel u eq_refl eq_refl) as (u' & Hr & Htr).
  { apply failing_tcgetpgrp_background; intros s; [reflexivity|simpl; lia]. }
  exists u'. split; [exact Hr|]. split; [exact Htr|].
  pose proof (init_shell_silent fuel u) as Hs. by rewrite Hr in Hs.
Qed.
